(** * live-vlm-webui: the object detection service

    A shallow embedding of [src/live_vlm_webui/object_detection_service.py]
    (class [ObjectDetectionService]) and the properties of its lazy
    initialization, single-flight frame gate, fail-open inference, result
    decoding and latency metrics.

    Conventions of the embedding:
    - Python [float] is IEEE binary64: Rocq's primitive [float].  The
      built-ins [round(x, n)], [int(x)] and the int-to-float coercion are
      written out on the exact value of the float ([Prim2SF]).
    - Python [int] is [Z]; [dict] is [gmap string _]; [list] is [list].
    - The detection backend (ultralytics) is external: it is a value of
      type [Env], and every call made to it is recorded in the [trace] of
      the [World] the service runs in.
    - Methods are computations in the monad [M]: they thread the [World]
      and may raise.  State written before a [raise] stays written.
      [except Exception] catches the exceptions derived from [Exception]
      and lets the others through ([asyncio.CancelledError], [SystemExit],
      [KeyboardInterrupt]); leaving an [async with] block releases the
      lock for every exception.
    - [detect] and [process_frame] are coroutines with one suspension point
      ([await asyncio.to_thread(...)]).  Each is split there in a [_start]
      and a [_finish] half; the event loop may run other operations of the
      service between the two. *)

From Stdlib Require Import ZArith Floats Lia List.
From stdpp Require Import gmap strings list.

Set Warnings "-inexact-float,-register-all".
Local Open Scope Z_scope.

(** ** Python exceptions *)

Inductive Exn : Type :=
  | ImportError
  | TypeError
  | AttributeError
  | KeyError
  | IndexError
  | ValueError
  | OverflowError
  | BackendError (msg : string)   (* an [Exception] raised by the backend *)
  | CancelledError                (* [asyncio.CancelledError], thrown in at an [await] *)
  | SystemExit
  | KeyboardInterrupt.

(** [isinstance(e, Exception)]: the last three derive from
    [BaseException] only. *)
Definition is_Exception (e : Exn) : bool :=
  match e with
  | CancelledError | SystemExit | KeyboardInterrupt => false
  | _ => true
  end.

(** ** Python numbers *)

Module Py.

(** Nearest integer of [num / den], ties to the even one
    ([0 <= num], [0 < den]). *)
Definition half_even (num den : Z) : Z :=
  let q := num / den in
  let r := num mod den in
  match 2 * r ?= den with
  | Lt => q
  | Gt => q + 1
  | Eq => if Z.even q then q else q + 1
  end.

(** The double nearest to [k / 10^n] with the sign [s] (what [strtod]
    returns on the decimal string). *)
Definition of_decimal (s : bool) (k : Z) (n : Z) : float :=
  match k with
  | Zpos kp =>
      SF2Prim (SFdiv prec emax (S754_finite s kp 0)
                               (S754_finite false (Z.to_pos (10 ^ n)) 0))
  | _ => SF2Prim (S754_zero s)
  end.

(** [round(x, ndigits)] of CPython for a float [x] and [0 <= ndigits]:
    the exact value of [x] is rounded half-even to [ndigits] decimals
    and that decimal is converted back to the nearest double; nan and
    the infinities round to themselves. *)
Definition round (x : float) (ndigits : Z) : float :=
  match Prim2SF x with
  | S754_finite s m e =>
      let k := match e with
               | Zneg ne => half_even (Zpos m * 10 ^ ndigits) (2 ^ Zpos ne)
               | _ => Zpos m * 2 ^ e * 10 ^ ndigits
               end in
      of_decimal s k ndigits
  | _ => x
  end.

(** [int(x)] for a float: truncation towards zero; [ValueError] on nan,
    [OverflowError] on an infinity. *)
Definition int (x : float) : Exn + Z :=
  match Prim2SF x with
  | S754_nan => inl ValueError
  | S754_infinity _ => inl OverflowError
  | S754_zero _ => inr 0
  | S754_finite s m e =>
      let a := match e with
               | Zneg ne => Z.shiftr (Zpos m) (Zpos ne)
               | _ => Z.shiftl (Zpos m) e
               end in
      inr (if s then - a else a)
  end.

(** The coercion of an int operand in [float / int] and [float * int]:
    the nearest double, ties to even.  (CPython raises [OverflowError]
    from 2^1024 on; here the result is an infinity.) *)
Definition float_of_int (z : Z) : float :=
  SF2Prim (binary_normalize prec emax z 0 false).

End Py.

(** ** Values handed to the JSON layer *)

Inductive PyVal : Type :=
  | VFloat (f : float)
  | VInt (z : Z)
  | VStr (s : string)
  | VList (l : list PyVal).

(** A detection is the dict built at lines 131-143. *)
Abbreviation Detection := (gmap string PyVal).

(** ** The backend: frames, raw results, model handle *)

(** A frame: an [height x width x channels] array of bytes. *)
Record Image : Type := {
  height : N;
  width : N;
  channels : N;
  pixel : N -> N -> N -> Z
}.

(** [np.zeros((h, w, c), dtype=np.uint8)] *)
Definition np_zeros (h w c : N) : Image :=
  {| height := h; width := w; channels := c; pixel := fun _ _ _ => 0 |}.

(** [boxes[i]]: one row of the backend's box table.  [xyxy] is a 1 x 4
    tensor, [conf] and [cls] are 1-element tensors. *)
Record Boxes1 : Type := {
  xyxy : list (list float);
  conf : list float;
  cls : list float
}.

(** [result.masks]: [xy] holds one polygon (an n x 2 array) per object. *)
Record Masks : Type := {
  xy : list (option (list (float * float)))
}.

(** One per-frame result.  [boxes = None] is a result without a box table,
    [masks = None] a missing or [None] attribute
    ([getattr(result, 'masks', None)]). *)
Record Results : Type := {
  boxes : option (list Boxes1);
  masks : option Masks
}.

(** The loaded model: a callable [model(image, conf=..., verbose=False)]
    and the class-name table [model.names].  The return value of the call
    is [None] or a list of per-frame results. *)
Record Model : Type := {
  call : Image -> option float -> Exn + option (list Results);
  names : gmap Z string
}.

(** The environment of the module: what [from ultralytics import YOLO]
    (lines 33-38) found, and the readings of [time.perf_counter()]. *)
Record Env : Type := {
  ultralytics : option (string -> Exn + Model);
  perf_counter : nat -> float
}.

Definition YOLO_AVAILABLE (env : Env) : bool :=
  match ultralytics env with Some _ => true | None => false end.

Definition YOLO (env : Env) : option (string -> Exn + Model) :=
  ultralytics env.

(** ** The service object (lines 63-73) *)

Record ObjectDetectionService : Type := {
  model_path : string;
  confidence : float;
  model : option Model;
  is_initialized : bool;
  current_detections : list Detection;
  _processing_lock : bool;          (* [asyncio.Lock]: [true] is locked *)
  last_inference_time : float;
  total_inferences : Z;
  total_inference_time : float
}.

Definition set_model (v : option Model) (s : ObjectDetectionService) :=
  {| model_path := model_path s; confidence := confidence s; model := v;
     is_initialized := is_initialized s;
     current_detections := current_detections s;
     _processing_lock := _processing_lock s;
     last_inference_time := last_inference_time s;
     total_inferences := total_inferences s;
     total_inference_time := total_inference_time s |}.

Definition set_is_initialized (v : bool) (s : ObjectDetectionService) :=
  {| model_path := model_path s; confidence := confidence s; model := model s;
     is_initialized := v;
     current_detections := current_detections s;
     _processing_lock := _processing_lock s;
     last_inference_time := last_inference_time s;
     total_inferences := total_inferences s;
     total_inference_time := total_inference_time s |}.

Definition set_current_detections (v : list Detection) (s : ObjectDetectionService) :=
  {| model_path := model_path s; confidence := confidence s; model := model s;
     is_initialized := is_initialized s;
     current_detections := v;
     _processing_lock := _processing_lock s;
     last_inference_time := last_inference_time s;
     total_inferences := total_inferences s;
     total_inference_time := total_inference_time s |}.

Definition set_processing_lock (v : bool) (s : ObjectDetectionService) :=
  {| model_path := model_path s; confidence := confidence s; model := model s;
     is_initialized := is_initialized s;
     current_detections := current_detections s;
     _processing_lock := v;
     last_inference_time := last_inference_time s;
     total_inferences := total_inferences s;
     total_inference_time := total_inference_time s |}.

(** Lines 151-153, the three metric fields at once. *)
Definition record_inference (inference_time : float) (s : ObjectDetectionService) :=
  {| model_path := model_path s; confidence := confidence s; model := model s;
     is_initialized := is_initialized s;
     current_detections := current_detections s;
     _processing_lock := _processing_lock s;
     last_inference_time := inference_time;
     total_inferences := total_inferences s + 1;
     total_inference_time := (total_inference_time s + inference_time)%float |}.

(** ** The world a method runs in *)

Inductive Level : Type := INFO | ERROR.

Inductive Event : Type :=
  | EvConstruct (path : string)                    (* [YOLO(path)] *)
  | EvInvoke (image : Image) (conf : option float) (* [model(image, ...)] *)
  | EvLog (lvl : Level).                           (* [logger.info/error] *)

Record World : Type := {
  svc : ObjectDetectionService;   (* [self] *)
  trace : list Event;             (* calls made so far, oldest first *)
  ticks : nat                     (* clock readings taken so far *)
}.

(** ** The monad of methods: state and exceptions *)

Definition M (A : Type) : Type := World -> (Exn + A) * World.

Definition ret {A} (a : A) : M A := fun w => (inr a, w).

Definition raise {A} (e : Exn) : M A := fun w => (inl e, w).

Definition bind {A B} (c : M A) (k : A -> M B) : M B :=
  fun w => match c w with
           | (inr a, w') => k a w'
           | (inl e, w') => (inl e, w')
           end.

(** [try: c except Exception as e: h e]: an exception that is not an
    [Exception] is not caught. *)
Definition try_except {A} (c : M A) (h : Exn -> M A) : M A :=
  fun w => match c w with
           | (inr a, w') => (inr a, w')
           | (inl e, w') => if is_Exception e then h e w' else (inl e, w')
           end.

(** [async with ...: c], seen from the block: when [c] is left by an
    exception, of any class, [release] runs and the exception goes on. *)
Definition on_raise {A} (c : M A) (release : M unit) : M A :=
  fun w => match c w with
           | (inr a, w') => (inr a, w')
           | (inl e, w') => (inl e, snd (release w'))
           end.

Declare Scope py_scope.
Delimit Scope py_scope with py.
Notation "'let!' x ':=' c 'in' k" := (bind c (fun x => k))
  (at level 10, x name, c at level 100, k at level 200) : py_scope.
Notation "c ';;;' k" := (bind c (fun _ => k))
  (at level 100, k at level 200, right associativity) : py_scope.
Local Open Scope py_scope.

(** A value or exception computed outside the monad. *)
Definition lift {A} (r : Exn + A) : M A :=
  match r with inr a => ret a | inl e => raise e end.

Definition self : M ObjectDetectionService := fun w => (inr (svc w), w).

Definition modify (f : ObjectDetectionService -> ObjectDetectionService) : M unit :=
  fun w => (inr tt, {| svc := f (svc w); trace := trace w; ticks := ticks w |}).

Definition emit (ev : Event) : M unit :=
  fun w => (inr tt, {| svc := svc w; trace := trace w ++ [ev]; ticks := ticks w |}).

Definition logger (lvl : Level) : M unit := emit (EvLog lvl).

(** [l[i]] for a list or tensor *)
Definition index {A} (l : list A) (i : nat) : Exn + A :=
  match l !! i with
  | Some x => inr x
  | None => inl IndexError
  end.

(** [segments.tolist()] for an n x 2 array: a list of [[x, y]] pairs *)
Definition tolist (segments : list (float * float)) : PyVal :=
  VList (map (fun '(x, y) => VList [VFloat x; VFloat y]) segments).

(** The suspended half of a [detect] call: the local [start_time] and
    what the [await] delivers when the call is resumed: the backend's
    return value, the exception the worker raised, or [CancelledError]
    when the task was cancelled meanwhile. *)
Record Pending : Type := {
  start_time : float;
  awaited : Exn + option (list Results)
}.

Definition default_model_path : string := "yolo26n-seg.pt".
Definition default_confidence : float := 0.25%float.

Section Service.

Variable env : Env.

(** [time.perf_counter()] *)
Definition time_perf_counter : M float :=
  fun w => (inr (perf_counter env (ticks w)),
            {| svc := svc w; trace := trace w; ticks := S (ticks w) |}).

(** [YOLO(path)]; [YOLO] is [None] when the import failed. *)
Definition call_YOLO (path : string) : M Model :=
  match YOLO env with
  | None => raise TypeError
  | Some ctor => emit (EvConstruct path) ;;; lift (ctor path)
  end.

(** [m(image, conf=c, verbose=False)], run to completion *)
Definition call_model (m : option Model) (image : Image) (c : option float)
  : M (option (list Results)) :=
  match m with
  | None => raise TypeError
  | Some f => emit (EvInvoke image c) ;;; lift (call f image c)
  end.

(** [asyncio.to_thread(m, image, conf=c, verbose=False)]: the call is
    handed to a worker; what it returns or raises is delivered when the
    coroutine is resumed. *)
Definition to_thread (m : option Model) (image : Image) (c : option float)
  : M (Exn + option (list Results)) :=
  match m with
  | None => ret (inl TypeError)
  | Some f => emit (EvInvoke image c) ;;; ret (call f image c)
  end.

(** Lines 46-73 *)
Definition __init__ (model_path : string) (confidence : float)
  : Exn + ObjectDetectionService :=
  if negb (YOLO_AVAILABLE env) then inl ImportError
  else inr {| model_path := model_path;
              confidence := confidence;
              model := None;
              is_initialized := false;
              current_detections := [];
              _processing_lock := false;
              last_inference_time := 0%float;
              total_inferences := 0;
              total_inference_time := 0%float |}.

(** Lines 75-94 *)
Definition initialize : M unit :=
  let! s := self in
  if is_initialized s then ret tt
  else if negb (YOLO_AVAILABLE env) then logger ERROR ;;; ret tt
  else
    try_except
      (logger INFO ;;;
       let! s := self in
       let! m := call_YOLO (model_path s) in
       modify (set_model (Some m)) ;;;
       let! s := self in
       call_model (model s) (np_zeros 640 640 3) None ;;;
       modify (set_is_initialized true) ;;;
       logger INFO)
      (fun e => logger ERROR ;;; raise e).

(** Lines 124-145, the body of the loop for index [i] *)
Definition decode_box (masks : option Masks) (i : nat) (box : Boxes1)
  : M Detection :=
  let! coords := lift (index (xyxy box) 0) in
  let! conf := lift (index (conf box) 0) in
  let! c := lift (index (cls box) 0) in
  let! cls := lift (Py.int c) in
  let! s := self in
  let! m := lift (match model s with
                  | Some m => inr m
                  | None => inl AttributeError
                  end) in
  let! label := lift (match names m !! cls with
                      | Some l => inr l
                      | None => inl KeyError
                      end) in
  let det : Detection :=
    <["conf" := VFloat (Py.round conf 2)]>
      (<["class_id" := VInt cls]>
         (<["label" := VStr label]>
            {["box" := VList (map (fun c => VFloat (Py.round c 1)) coords)]})) in
  match masks with
  | None => ret det
  | Some ms =>
      let! segments := lift (index (xy ms) i) in
      match segments with
      | Some (pt :: pts) => ret (<["mask" := tolist (pt :: pts)]> det)
      | _ => ret det
      end
  end.

(** Lines 123-145: [for i in range(len(boxes))], from index [i] on *)
Fixpoint decode_loop (masks : option Masks) (i : nat) (rest : list Boxes1)
  : M (list Detection) :=
  match rest with
  | [] => ret []
  | box :: rest' =>
      let! det := decode_box masks i box in
      let! dets := decode_loop masks (S i) rest' in
      ret (det :: dets)
  end.

(** Lines 117-145 *)
Definition decode (results : option (list Results)) : M (list Detection) :=
  match results with
  | Some (result :: _) =>
      match boxes result with
      | None => raise TypeError          (* [len(None)] *)
      | Some bs => decode_loop (masks result) 0 bs
      end
  | _ => ret []
  end.

(** Lines 106-115: [detect] up to its suspension point *)
Definition detect_start (image : Image) : M Pending :=
  let! s := self in
  (if negb (is_initialized s) then initialize else ret tt) ;;;
  let! t0 := time_perf_counter in
  let! s := self in
  let! fut := to_thread (model s) image (Some (confidence s)) in
  ret {| start_time := t0; awaited := fut |}.

(** Lines 113-155: the rest of the [try] block, once the worker is done *)
Definition detect_body (p : Pending) : M (list Detection) :=
  let! results := lift (awaited p) in
  let! detections := decode results in
  let! end_time := time_perf_counter in
  let inference_time := (end_time - start_time p)%float in
  modify (record_inference inference_time) ;;;
  ret detections.

(** Lines 109-159: [detect] from its suspension point on *)
Definition detect_finish (p : Pending) : M (list Detection) :=
  try_except (detect_body p) (fun e => logger ERROR ;;; ret []).

(** [detect] when nothing else runs while it is suspended *)
Definition detect (image : Image) : M (list Detection) :=
  let! p := detect_start image in
  detect_finish p.

(** Lines 165-169: [process_frame] up to the suspension point of the
    [detect] it awaits; [None] is the early [return] of line 166.
    Leaving the [async with] block by an exception releases the lock. *)
Definition process_frame_start (image : Image) : M (option Pending) :=
  let! s := self in
  if _processing_lock s then ret None
  else
    modify (set_processing_lock true) ;;;
    on_raise
      (let! p := detect_start image in ret (Some p))
      (modify (set_processing_lock false)).

(** Lines 169-170 and the exit of the [async with] block *)
Definition process_frame_finish (p : Pending) : M unit :=
  on_raise
    (let! detections := detect_finish p in
     modify (set_current_detections detections))
    (modify (set_processing_lock false)) ;;;
  modify (set_processing_lock false).

(** [process_frame] when nothing else runs while it is suspended *)
Definition process_frame (image : Image) : M unit :=
  let! r := process_frame_start image in
  match r with
  | None => ret tt
  | Some p => process_frame_finish p
  end.

End Service.

(** Lines 172-174 *)
Definition get_current_detections (s : ObjectDetectionService) : list Detection :=
  current_detections s.

(** Lines 176-185 *)
Definition get_metrics (s : ObjectDetectionService) : gmap string PyVal :=
  let avg_latency :=
    if 0 <? total_inferences s
    then (total_inference_time s / Py.float_of_int (total_inferences s))%float
    else 0%float in
  <["total_detections" := VInt (total_inferences s)]>
    (<["avg_latency_ms" := VFloat (avg_latency * Py.float_of_int 1000)%float]>
       {["last_latency_ms" :=
           VFloat (last_inference_time s * Py.float_of_int 1000)%float]}).

(** ** Operations a caller can perform on a live service

    The event loop runs one of these at a time.  [OpDetect] and
    [OpProcessFrame] are calls that nothing interleaves with; the [Start]
    and [Finish] operations are the two halves of a call that is suspended
    in between. *)

Inductive Op : Type :=
  | OpInitialize
  | OpDetectStart (image : Image)
  | OpDetectFinish (p : Pending)
  | OpDetect (image : Image)
  | OpProcessStart (image : Image)
  | OpProcessFinish (p : Pending)
  | OpProcessFrame (image : Image)
  | OpGetCurrentDetections
  | OpGetMetrics.

Definition exec (env : Env) (op : Op) (w : World) : World :=
  match op with
  | OpInitialize => snd (initialize env w)
  | OpDetectStart image => snd (detect_start env image w)
  | OpDetectFinish p => snd (detect_finish env p w)
  | OpDetect image => snd (detect env image w)
  | OpProcessStart image => snd (process_frame_start env image w)
  | OpProcessFinish p => snd (process_frame_finish env p w)
  | OpProcessFrame image => snd (process_frame env image w)
  | OpGetCurrentDetections => w
  | OpGetMetrics => w
  end.

Definition run (env : Env) (ops : list Op) (w : World) : World :=
  fold_left (fun w op => exec env op w) ops w.

(** The world around a service that was just constructed. *)
Definition boot (s : ObjectDetectionService) : World :=
  {| svc := s; trace := []; ticks := 0 |}.

(** The latency a resumed [detect] records when its [try] block completes:
    the clock reading taken at line 147 minus [start_time]. *)
Definition latency_of (env : Env) (p : Pending) (w : World) : option float :=
  match detect_body env p w with
  | (inr _, _) => Some (perf_counter env (ticks w) - start_time p)%float
  | (inl _, _) => None
  end.

(** The latency recorded by one operation, if it completes an inference
    successfully. *)
Definition recorded (env : Env) (op : Op) (w : World) : option float :=
  match op with
  | OpDetectFinish p | OpProcessFinish p => latency_of env p w
  | OpDetect image =>
      match detect_start env image w with
      | (inr p, w1) => latency_of env p w1
      | _ => None
      end
  | OpProcessFrame image =>
      match process_frame_start env image w with
      | (inr (Some p), w1) => latency_of env p w1
      | _ => None
      end
  | _ => None
  end.

(** The latencies recorded along a run, oldest first. *)
Fixpoint latencies (env : Env) (ops : list Op) (w : World) : list float :=
  match ops with
  | [] => []
  | op :: ops' =>
      match recorded env op w with
      | Some l => l :: latencies env ops' (exec env op w)
      | None => latencies env ops' (exec env op w)
      end
  end.

(** ** Test fixtures: a small backend *)

Module Fixture.

Definition frame : Image :=
  {| height := 2; width := 2; channels := 3; pixel := fun _ _ _ => 7 |}.

Definition coco : gmap Z string :=
  <[2 := "car"%string]> (<[1 := "bicycle"%string]> {[0 := "person"%string]}).

Definition box_of (x1 y1 x2 y2 c k : float) : Boxes1 :=
  {| xyxy := [[x1; y1; x2; y2]]; conf := [c]; cls := [k] |}.

Definition person : Boxes1 :=
  box_of 10.249%float 20.251%float 30.0%float 40.0%float 0.91%float 0%float.

Definition precise : Boxes1 :=
  box_of 10.249%float 20.251%float 30.0%float 40.0%float 0.8675%float 0%float.

Definition car : Boxes1 :=
  box_of 1.0%float 2.0%float 3.0%float 4.0%float 0.40%float 2%float.

Definition polygon : list (float * float) :=
  [(1.5%float, 2.5%float); (3.5%float, 4.5%float); (5.5%float, 6.5%float)].

(** A detection model without segmentation output *)
Definition detector : Model :=
  {| call := fun _ _ => inr (Some [{| boxes := Some [person; car]; masks := None |}]);
     names := coco |}.

(** A segmentation model: a polygon for the first object, none for the
    second *)
Definition segmenter : Model :=
  {| call := fun _ _ =>
       inr (Some [{| boxes := Some [person; car];
                     masks := Some {| xy := [Some polygon; Some []] |} |}]);
     names := coco |}.

(** A model that loads and warms up but fails on every real frame (the
    warm-up is the call without a confidence threshold) *)
Definition flaky : Model :=
  {| call := fun _ c => match c with
                        | None => inr (Some [])
                        | Some _ => inl (BackendError "CUDA error")
                        end;
     names := coco |}.

(** A model that raises on an empty frame *)
Definition picky : Model :=
  {| call := fun image _ =>
       if (height image =? 0)%N then inl (BackendError "empty frame")
       else inr (Some [{| boxes := Some [person; car]; masks := None |}]);
     names := coco |}.

Definition empty_frame : Image := np_zeros 0 0 3.


Definition clock (n : nat) : float :=
  (0.5 * PrimFloat.of_uint63 (Uint63.of_Z (Z.of_nat n)))%float.

Definition env_of (m : Model) : Env :=
  {| ultralytics := Some (fun _ => inr m); perf_counter := clock |}.

(** ultralytics is not installed *)
Definition env_missing : Env :=
  {| ultralytics := None; perf_counter := clock |}.

(** the weights file does not load *)
Definition env_broken : Env :=
  {| ultralytics := Some (fun _ => inl (BackendError "no such file"));
     perf_counter := clock |}.

Definition fresh : ObjectDetectionService :=
  {| model_path := default_model_path;
     confidence := default_confidence;
     model := None;
     is_initialized := false;
     current_detections := [];
     _processing_lock := false;
     last_inference_time := 0%float;
     total_inferences := 0;
     total_inference_time := 0%float |}.

End Fixture.

(** ** Notions used in the statements *)

(** Computations that leave the world as it is. *)
Definition read_only {A} (c : M A) : Prop := forall w, snd (c w) = w.

(** What [except Exception: logger.error(...)] logs for [e]. *)
Definition err_log (e : Exn) : list Event :=
  if is_Exception e then [EvLog ERROR] else [].

(** The world [w] with [evs] appended to its trace. *)
Definition logged (w : World) (evs : list Event) : World :=
  {| svc := svc w; trace := trace w ++ evs; ticks := ticks w |}.

(** The blank frame of the warm-up inference (line 89). *)
Definition warm_up_frame : Image := np_zeros 640 640 3.

(** The job handed to the worker thread. *)
Definition submitted (s : ObjectDetectionService) (image : Image)
  : Exn + option (list Results) :=
  match model s with
  | None => inl TypeError
  | Some f => call f image (Some (confidence s))
  end.

(** The trace of handing that job over. *)
Definition invoked (s : ObjectDetectionService) (image : Image) : list Event :=
  match model s with
  | None => []
  | Some _ => [EvInvoke image (Some (confidence s))]
  end.

(** The world [w] with the gate set to [b]. *)
Definition with_lock (b : bool) (w : World) : World :=
  {| svc := set_processing_lock b (svc w); trace := trace w; ticks := ticks w |}.

(** The exception of the backend call or of the decode step, if any. *)
Definition inference_error (p : Pending) (w : World) : option Exn :=
  match awaited p with
  | inl e => Some e
  | inr results =>
      match fst (decode results w) with
      | inl e => Some e
      | inr _ => None
      end
  end.

(** The exception the [await] delivers that [except Exception] does not
    catch, if any. *)
Definition escaping (p : Pending) : option Exn :=
  match awaited p with
  | inl e => if is_Exception e then None else Some e
  | inr _ => None
  end.

(** What a resumed [detect] returns, when it returns: the decoded batch,
    or the empty one when the backend call or the decode step raised. *)
Definition batch_of (p : Pending) (w : World) : list Detection :=
  match awaited p with
  | inl _ => []
  | inr results =>
      match fst (decode results w) with
      | inl _ => []
      | inr detections => detections
      end
  end.


(** "A failed inference leaves the previously stored batch in place": a
    frame that is not dropped and whose inference fails does not change
    [current_detections]. *)
Definition failed_frame_keeps_batch (env : Env) (image : Image) (w : World) : Prop :=
  forall p w1 e,
    process_frame_start env image w = (inr (Some p), w1) ->
    inference_error p w1 = Some e ->
    current_detections (svc (exec env (OpProcessFrame image) w)) =
    current_detections (svc w).

(** Whenever the service says it is initialized, it holds a model. *)
Definition ready_inv (s : ObjectDetectionService) : Prop :=
  is_initialized s = true -> exists m, model s = Some m.

(** [s'] is [s] after a successful load: the model was constructed from the
    configured path, the warm-up call returned, and that model is stored. *)
Definition loaded_by (env : Env) (s s' : ObjectDetectionService) : Prop :=
  is_initialized s = false /\ is_initialized s' = true /\
  exists ctor m r,
    ultralytics env = Some ctor /\
    ctor (model_path s) = inr m /\
    call m warm_up_frame None = inr r /\
    model s' = Some m.

(** One operation either keeps the readiness flag (and, once ready, the
    model), or performs a successful load. *)
Definition init_step (env : Env) (s s' : ObjectDetectionService) : Prop :=
  (is_initialized s' = is_initialized s /\
   (is_initialized s = true -> model s' = model s))
  \/ loaded_by env s s'.

(** Two services agree on what [initialize] reads and writes. *)
Definition same_load (s s' : ObjectDetectionService) : Prop :=
  model_path s = model_path s' /\ model s = model s' /\
  is_initialized s = is_initialized s'.

(** The three accumulators. *)
Definition metrics_of (s : ObjectDetectionService) : float * Z * float :=
  (last_inference_time s, total_inferences s, total_inference_time s).

(** [record(latency)] on the accumulators, or nothing. *)
Definition bump (l : option float) (m : float * Z * float) : float * Z * float :=
  match l, m with
  | Some l, (_, n, t) => (l, n + 1, (t + l)%float)
  | None, _ => m
  end.

(** The float sum of a list, left to right from [0.0] (Python's [sum]). *)
Definition fsum (ls : list float) : float := fold_left PrimFloat.add ls 0%float.

(** The boxes and masks of the frame's result, as [decode] reads them. *)
Definition frame_boxes (results : option (list Results)) : list Boxes1 :=
  match results with
  | Some (result :: _) => default [] (boxes result)
  | _ => []
  end.

Definition frame_masks (results : option (list Results)) : option Masks :=
  match results with
  | Some (result :: _) => masks result
  | _ => None
  end.

(** The non-empty polygon the backend provides for object [i], if any. *)
Definition segmentation (masks : option Masks) (i : nat)
  : option (list (float * float)) :=
  match masks with
  | None => None
  | Some ms =>
      match xy ms !! i with
      | Some (Some (pt :: pts)) => Some (pt :: pts)
      | _ => None
      end
  end.

(** The four mandatory entries of a detection. *)
Definition base_detection (coords : list float) (c : float) (cid : Z)
  (label : string) : Detection :=
  <["conf" := VFloat (Py.round c 2)]>
    (<["class_id" := VInt cid]>
       (<["label" := VStr label]>
          {["box" := VList (map (fun x => VFloat (Py.round x 1)) coords)]})).

(** [det], with the [mask] entry when there is a polygon. *)
Definition with_mask (seg : option (list (float * float))) (det : Detection)
  : Detection :=
  match seg with
  | Some pts => <["mask" := tolist pts]> det
  | None => det
  end.

(** ** The event loop around the service

    Calls that are suspended at their [await] sit in a pool until their
    worker thread is done; the loop then resumes them, in any order. *)

Inductive Task : Type :=
  | TDetect (p : Pending)     (* a suspended [detect] *)
  | TFrame (p : Pending).     (* a suspended [process_frame] *)

Record System : Type := {
  world : World;
  tasks : list Task
}.

Inductive Action : Type :=
  | AInitialize                (* [service.initialize()] *)
  | ADetect (image : Image)    (* a task starts [service.detect(image)] *)
  | AFrame (image : Image)     (* a task starts [service.process_frame(image)] *)
  | AResume (i : nat).         (* the worker of the [i]-th suspended call is done *)

Definition act (env : Env) (a : Action) (sys : System) : System :=
  match a with
  | AInitialize =>
      {| world := snd (initialize env (world sys)); tasks := tasks sys |}
  | ADetect image =>
      match detect_start env image (world sys) with
      | (inr p, w') => {| world := w'; tasks := tasks sys ++ [TDetect p] |}
      | (inl _, w') => {| world := w'; tasks := tasks sys |}
      end
  | AFrame image =>
      match process_frame_start env image (world sys) with
      | (inr (Some p), w') => {| world := w'; tasks := tasks sys ++ [TFrame p] |}
      | (_, w') => {| world := w'; tasks := tasks sys |}
      end
  | AResume i =>
      match tasks sys !! i with
      | Some (TDetect p) =>
          {| world := snd (detect_finish env p (world sys));
             tasks := delete i (tasks sys) |}
      | Some (TFrame p) =>
          {| world := snd (process_frame_finish env p (world sys));
             tasks := delete i (tasks sys) |}
      | None => sys
      end
  end.

Definition schedule (env : Env) (acts : list Action) (sys : System) : System :=
  fold_left (fun sys a => act env a sys) acts sys.

(** A service that was just constructed, with nothing suspended. *)
Definition start (s : ObjectDetectionService) : System :=
  {| world := boot s; tasks := [] |}.

Definition is_frame (t : Task) : bool :=
  match t with TFrame _ => true | TDetect _ => false end.

(** The number of [process_frame] calls that hold an inference in flight. *)
Definition frames_in_flight (sys : System) : nat :=
  length (List.filter is_frame (tasks sys)).

(** ** Events of a trace *)

(** The event uses the values the service [s] was configured with: the
    model is constructed from [model_path], warmed up on the blank frame,
    and run on real frames with the threshold [confidence]. *)
Definition configured (s : ObjectDetectionService) (ev : Event) : Prop :=
  match ev with
  | EvConstruct path => path = model_path s
  | EvInvoke image None => image = warm_up_frame
  | EvInvoke image (Some c) => c = confidence s
  | EvLog _ => True
  end.

(** The events of loading a model: its construction and its warm-up. *)
Definition is_load (ev : Event) : bool :=
  match ev with
  | EvConstruct _ => true
  | EvInvoke _ None => true
  | _ => false
  end.

(** [w'] continues [w]: same configuration, a longer trace whose new
    events are configured, and, if [w] is ready, [w'] is ready with the
    same model and none of the new events loads one. *)
Definition continues (w w' : World) : Prop :=
  model_path (svc w') = model_path (svc w) /\
  confidence (svc w') = confidence (svc w) /\
  exists evs,
    trace w' = trace w ++ evs /\
    Forall (configured (svc w)) evs /\
    (is_initialized (svc w) = true ->
     is_initialized (svc w') = true /\ model (svc w') = model (svc w) /\
     Forall (fun ev => is_load ev = false) evs).


(** [detect] followed by the store of line 170. *)
Definition store (detections : list Detection) (w : World) : World :=
  {| svc := set_current_detections detections (svc w);
     trace := trace w; ticks := ticks w |}.

(** ** More fixtures *)

Module Scenario.

(** A box whose class id is not in the class-name table *)
Definition stray : Boxes1 :=
  Fixture.box_of 5.0%float 6.0%float 7.0%float 8.0%float 0.5%float 5%float.

End Scenario.

(** ** Notions used in the further properties *)

(** The backend returned nothing to decode: [None], no per-frame result,
    or a result whose box table is empty. *)
Definition nothing_detected (results : option (list Results)) : Prop :=
  match results with
  | Some (result :: _) => boxes result = Some []
  | _ => True
  end.

(** The gate is held exactly when one [process_frame] call is suspended. *)
Definition gate_inv (sys : System) : Prop :=
  frames_in_flight sys =
  if _processing_lock (svc (world sys)) then 1%nat else 0%nat.

(** Box [i] can be decoded with the model [m]: its three tensors have a
    first entry, the class is a finite number whose integer part is a key
    of the class-name table of a loaded model, and, if the result has
    masks, there is an entry for object [i]. *)
Definition decodable (m : option Model) (masks : option Masks) (i : nat)
  (box : Boxes1) : Prop :=
  exists coords c k cid mm label,
    xyxy box !! 0%nat = Some coords /\ conf box !! 0%nat = Some c /\
    cls box !! 0%nat = Some k /\ Py.int k = inr cid /\
    m = Some mm /\ names mm !! cid = Some label /\
    match masks with
    | None => True
    | Some ms => is_Some (xy ms !! i)
    end.

(** * Properties *)

(** ** Reasoning about computations in [M] *)

Lemma bind_inr {A B} (c : M A) (k : A -> M B) w b w' :
  bind c k w = (inr b, w') <->
  exists a w1, c w = (inr a, w1) /\ k a w1 = (inr b, w').
Proof.
  unfold bind. destruct (c w) as [[e|a] w1]; split.
  - discriminate.
  - intros (a & w2 & H & _). discriminate.
  - intros H. exists a, w1. auto.
  - intros (a' & w2 & H & Hk). congruence.
Qed.

Lemma bind_inl {A B} (c : M A) (k : A -> M B) w e w' :
  bind c k w = (inl e, w') <->
  c w = (inl e, w') \/ exists a w1, c w = (inr a, w1) /\ k a w1 = (inl e, w').
Proof.
  unfold bind. destruct (c w) as [[e1|a] w1]; split.
  - intros H. left. congruence.
  - intros [H | (a & w2 & H & _)]; congruence.
  - intros H. right. exists a, w1. auto.
  - intros [H | (a' & w2 & H & Hk)]; congruence.
Qed.

Lemma ro_ret {A} (a : A) : read_only (ret a).
Proof. intros w. reflexivity. Qed.

Lemma ro_raise {A} (e : Exn) : read_only (@raise A e).
Proof. intros w. reflexivity. Qed.

Lemma ro_lift {A} (r : Exn + A) : read_only (lift r).
Proof. destruct r; intros w; reflexivity. Qed.

Lemma ro_self : read_only self.
Proof. intros w. reflexivity. Qed.

Lemma ro_bind {A B} (c : M A) (k : A -> M B) :
  read_only c -> (forall a, read_only (k a)) -> read_only (bind c k).
Proof.
  intros Hc Hk w. unfold bind.
  specialize (Hc w). destruct (c w) as [[e|a] w1]; cbn [snd] in *; subst w1.
  - reflexivity.
  - apply Hk.
Qed.

Ltac read_only :=
  cbv zeta;
  repeat first
    [ apply ro_ret | apply ro_raise | apply ro_lift | apply ro_self
    | apply ro_bind; [ | intros ? ]
    | case_match ].

(** Decoding reads [self.model] and nothing else. *)

Lemma decode_box_ro masks i box : read_only (decode_box masks i box).
Proof. unfold decode_box. read_only. Qed.

Lemma decode_loop_ro masks rest : forall i, read_only (decode_loop masks i rest).
Proof.
  induction rest as [|box rest IH]; intros i; cbn [decode_loop].
  - apply ro_ret.
  - apply ro_bind; [apply decode_box_ro | intros det].
    apply ro_bind; [apply IH | intros dets]. apply ro_ret.
Qed.

Lemma decode_ro results : read_only (decode results).
Proof.
  unfold decode. repeat case_match; try apply ro_ret; try apply ro_raise.
  apply decode_loop_ro.
Qed.

Ltac unfold_M :=
  cbv beta iota zeta delta
    [bind try_except ret raise lift self modify emit logger
     time_perf_counter call_YOLO call_model to_thread] in *;
  cbn [fst snd svc trace ticks] in *.

(** ** What [initialize] does, case by case *)

Lemma initialize_eq env w :
  initialize env w =
  if is_initialized (svc w) then (inr tt, w)
  else match ultralytics env with
       | None => (inr tt, logged w [EvLog ERROR])
       | Some ctor =>
           let path := model_path (svc w) in
           match ctor path with
           | inl e =>
               (inl e, logged w ([EvLog INFO; EvConstruct path] ++ err_log e))
           | inr m =>
               match call m warm_up_frame None with
               | inl e =>
                   (inl e,
                    {| svc := set_model (Some m) (svc w);
                       trace := trace w ++ [EvLog INFO; EvConstruct path;
                                            EvInvoke warm_up_frame None]
                                        ++ err_log e;
                       ticks := ticks w |})
               | inr _ =>
                   (inr tt,
                    {| svc := set_is_initialized true (set_model (Some m) (svc w));
                       trace := trace w ++ [EvLog INFO; EvConstruct path;
                                            EvInvoke warm_up_frame None;
                                            EvLog INFO];
                       ticks := ticks w |})
               end
           end
       end.
Proof.
  unfold initialize, YOLO_AVAILABLE, logged, warm_up_frame. unfold_M.
  unfold YOLO. destruct w as [s tr tk]; cbn [svc trace ticks].
  destruct (is_initialized s); [reflexivity|].
  destruct (ultralytics env) as [ctor|]; cbn [negb svc trace ticks]; [|reflexivity].
  unfold err_log.
  destruct (ctor (model_path s)) as [e|m]; cbn [svc trace ticks].
  - destruct (is_Exception e); cbn [svc trace ticks app];
      rewrite <- ?app_assoc; reflexivity.
  - cbn [set_model model].
    destruct (call m (np_zeros 640 640 3) None) as [e|r]; cbn [svc trace ticks].
    + destruct (is_Exception e); cbn [svc trace ticks app];
        rewrite <- ?app_assoc; reflexivity.
    + rewrite <- !app_assoc. reflexivity.
Qed.

(** ** What the two halves of [detect] do *)

Lemma detect_start_eq env image w :
  detect_start env image w =
  match initialize env w with
  | (inl e, w1) => (inl e, w1)
  | (inr _, w1) =>
      (inr {| start_time := perf_counter env (ticks w1);
              awaited := submitted (svc w1) image |},
       {| svc := svc w1;
          trace := trace w1 ++ invoked (svc w1) image;
          ticks := S (ticks w1) |})
  end.
Proof.
  unfold detect_start, submitted, invoked.
  assert (Hi : (if negb (is_initialized (svc w)) then initialize env else ret tt) w
               = initialize env w).
  { destruct (is_initialized (svc w)) eqn:E; cbn [negb]; [|reflexivity].
    rewrite initialize_eq, E. reflexivity. }
  unfold bind at 1. unfold self at 1. unfold bind at 1. rewrite Hi.
  destruct (initialize env w) as [[e|[]] w1]; [reflexivity|].
  unfold_M. destruct (model (svc w1)); [reflexivity|].
  rewrite app_nil_r. destruct w1; reflexivity.
Qed.

Lemma detect_body_eq env p w :
  detect_body env p w =
  match awaited p with
  | inl e => (inl e, w)
  | inr results =>
      match fst (decode results w) with
      | inl e => (inl e, w)
      | inr detections =>
          (inr detections,
           {| svc := record_inference
                       (perf_counter env (ticks w) - start_time p)%float (svc w);
              trace := trace w;
              ticks := S (ticks w) |})
      end
  end.
Proof.
  unfold detect_body. unfold bind at 1.
  destruct (awaited p) as [e|results]; [reflexivity|].
  cbn [lift]. unfold ret at 1. unfold bind at 1.
  pose proof (decode_ro results w) as Hro.
  destruct (decode results w) as [[e|detections] w1]; cbn [fst snd] in *; subst w1;
    reflexivity.
Qed.

Lemma detect_finish_eq env p w :
  detect_finish env p w =
  match detect_body env p w with
  | (inr detections, w1) => (inr detections, w1)
  | (inl e, w1) =>
      if is_Exception e then (inr [], logged w1 [EvLog ERROR])
      else (inl e, w1)
  end.
Proof.
  unfold detect_finish, try_except.
  destruct (detect_body env p w) as [[e|d] w1]; [|reflexivity].
  destruct (is_Exception e); reflexivity.
Qed.

(** ** What the two halves of [process_frame] do *)

Lemma process_frame_start_eq env image w :
  process_frame_start env image w =
  if _processing_lock (svc w) then (inr None, w)
  else match detect_start env image (with_lock true w) with
       | (inr p, w1) => (inr (Some p), w1)
       | (inl e, w1) => (inl e, with_lock false w1)
       end.
Proof.
  unfold process_frame_start, with_lock.
  unfold bind at 1. unfold self at 1.
  destruct (_processing_lock (svc w)); [reflexivity|].
  unfold bind at 1. unfold modify at 1. unfold on_raise, bind at 1.
  destruct (detect_start env image _) as [[e|p] w1]; reflexivity.
Qed.

Lemma process_frame_finish_eq env p w :
  process_frame_finish env p w =
  match detect_finish env p w with
  | (inr detections, w1) =>
      (inr tt,
       {| svc := set_processing_lock false
                   (set_current_detections detections (svc w1));
          trace := trace w1; ticks := ticks w1 |})
  | (inl e, w1) => (inl e, with_lock false w1)
  end.
Proof.
  unfold process_frame_finish, with_lock.
  unfold bind at 1. unfold on_raise, bind at 1.
  destruct (detect_finish env p w) as [[e|d] w1]; reflexivity.
Qed.

(** [initialize] neither reads nor writes the lock. *)
Lemma initialize_with_lock env b w :
  initialize env (with_lock b w) =
  (fst (initialize env w), with_lock b (snd (initialize env w))).
Proof.
  rewrite !initialize_eq. unfold with_lock, logged.
  cbn [svc trace ticks set_processing_lock is_initialized model_path].
  destruct (is_initialized (svc w)); [reflexivity|].
  destruct (ultralytics env) as [ctor|]; [|reflexivity].
  cbv zeta. destruct (ctor (model_path (svc w))) as [e|m]; [reflexivity|].
  destruct (call m warm_up_frame None); reflexivity.
Qed.

(** ** The outcome of the resumed half of [detect] *)

(** The decode step raises exceptions derived from [Exception] only. *)
Lemma decode_box_raises masks i box w e :
  fst (decode_box masks i box w) = inl e -> is_Exception e = true.
Proof.
  unfold decode_box, index, Py.int. unfold_M.
  destruct (xyxy box !! 0%nat); cbv beta iota;
    [|intros H; injection H as <-; reflexivity].
  destruct (conf box !! 0%nat); cbv beta iota;
    [|intros H; injection H as <-; reflexivity].
  destruct (cls box !! 0%nat) as [k|]; cbv beta iota;
    [|intros H; injection H as <-; reflexivity].
  destruct (Prim2SF k); cbv beta iota;
    try (intros H; injection H as <-; reflexivity).
  all: destruct (model (svc w)) as [mm|]; cbv beta iota;
    [|intros H; injection H as <-; reflexivity].
  all: destruct (names mm !! _); cbv beta iota;
    [|intros H; injection H as <-; reflexivity].
  all: destruct masks as [ms|]; [|discriminate].
  all: destruct (xy ms !! i) as [[[|pt pts]|]|]; cbv beta iota;
    try discriminate; intros H; injection H as <-; reflexivity.
Qed.

Lemma decode_loop_raises masks bs : forall i w e,
  fst (decode_loop masks i bs w) = inl e -> is_Exception e = true.
Proof.
  induction bs as [|b bs IH]; intros i w e; cbn [decode_loop]; [discriminate|].
  unfold bind.
  pose proof (decode_box_raises masks i b w) as Hb.
  pose proof (decode_box_ro masks i b w) as Hro.
  destruct (decode_box masks i b w) as [[e0|d] w1]; cbn [fst snd] in *.
  - intros H. injection H as <-. apply Hb. reflexivity.
  - subst w1. pose proof (IH (S i) w) as Hl.
    destruct (decode_loop masks (S i) bs w) as [[e1|ds] w2]; cbn [fst] in *.
    + intros H. injection H as <-. apply Hl. reflexivity.
    + discriminate.
Qed.

Lemma decode_raises results w e :
  fst (decode results w) = inl e -> is_Exception e = true.
Proof.
  unfold decode. destruct results as [[|result rest]|]; try discriminate.
  destruct (boxes result) as [bs|].
  - apply decode_loop_raises.
  - intros H. injection H as <-. reflexivity.
Qed.

Lemma detect_body_fails env p w e :
  inference_error p w = Some e -> detect_body env p w = (inl e, w).
Proof.
  unfold inference_error. rewrite detect_body_eq.
  destruct (awaited p) as [e0|results]; [congruence|].
  destruct (fst (decode results w)); congruence.
Qed.

Lemma latency_of_error env p w :
  latency_of env p w = None <-> exists e, inference_error p w = Some e.
Proof.
  unfold latency_of, inference_error. rewrite detect_body_eq.
  destruct (awaited p) as [e0|results].
  - split; eauto.
  - destruct (fst (decode results w)) as [e0|d]; split; eauto;
      intros H; try discriminate; destruct H; discriminate.
Qed.

(** Fail-open, at the suspension point: whatever ran in between, a failed
    inference resumes to the empty batch and writes no field of the
    service. *)
Lemma detect_finish_fail_open env p w e :
  inference_error p w = Some e ->
  is_Exception e = true ->
  detect_finish env p w = (inr [], logged w [EvLog ERROR]).
Proof.
  intros H He. rewrite detect_finish_eq, (detect_body_fails env p w e H), He.
  reflexivity.
Qed.


(** Only what the [await] delivers can escape, never a decode error. *)
Lemma detect_finish_inl env p w e :
  fst (detect_finish env p w) = inl e <->
  awaited p = inl e /\ is_Exception e = false.
Proof.
  rewrite detect_finish_eq, detect_body_eq.
  destruct (awaited p) as [e0|results].
  - destruct (is_Exception e0) eqn:E0; cbn [fst]; split.
    + discriminate.
    + intros [H He]. congruence.
    + intros H. split; congruence.
    + intros [H _]. congruence.
  - split; [|intros [H _]; discriminate].
    destruct (fst (decode results w)) as [e0|d] eqn:Ed; [|discriminate].
    rewrite (decode_raises results w e0 Ed). discriminate.
Qed.

(** The service before and after [initialize] has the same metrics,
    batch and lock. *)
Lemma initialize_frame env w :
  let s' := svc (snd (initialize env w)) in
  last_inference_time s' = last_inference_time (svc w) /\
  total_inferences s' = total_inferences (svc w) /\
  total_inference_time s' = total_inference_time (svc w) /\
  current_detections s' = current_detections (svc w) /\
  _processing_lock s' = _processing_lock (svc w) /\
  model_path s' = model_path (svc w) /\
  confidence s' = confidence (svc w).
Proof.
  rewrite initialize_eq.
  destruct (is_initialized (svc w)); [cbn; tauto|].
  destruct (ultralytics env) as [ctor|]; [|cbn; tauto].
  cbv zeta. destruct (ctor (model_path (svc w))) as [e|m]; [cbn; tauto|].
  destruct (call m warm_up_frame None); cbn; tauto.
Qed.

Lemma detect_start_svc env image w :
  svc (snd (detect_start env image w)) = svc (snd (initialize env w)).
Proof.
  rewrite detect_start_eq.
  destruct (initialize env w) as [[e|u] w1]; reflexivity.
Qed.

(** * The claims *)

(** C7. Construction-time availability check: when the import of the
    backend failed, the constructor raises [ImportError] and no service
    object exists on which [initialize] or [detect] could be called; when
    the backend is present the constructor returns a service (not yet
    loaded, unlocked, with zeroed metrics) and raises nothing. *)
Theorem construction_checks_availability (env : Env) (path : string) (c : float) :
  match ultralytics env with
  | None => __init__ env path c = inl ImportError
  | Some _ =>
      exists s, __init__ env path c = inr s /\
        model_path s = path /\ confidence s = c /\
        model s = None /\ is_initialized s = false /\
        current_detections s = [] /\ _processing_lock s = false /\
        total_inferences s = 0
  end.
Proof.
  unfold __init__, YOLO_AVAILABLE.
  destruct (ultralytics env); cbn [negb]; [|reflexivity].
  eexists. split; [reflexivity|]. cbn. tauto.
Qed.

(** C4. Idempotent initialization: in the Ready state [initialize]
    returns at once and leaves the world as it is: every field of the
    service is unchanged and the trace gains no event, so there is no
    second model construction and no second warm-up inference. *)
Theorem initialize_idempotent (env : Env) (w : World) :
  is_initialized (svc w) = true ->
  initialize env w = (inr tt, w).
Proof.
  intros H. rewrite initialize_eq, H. reflexivity.
Qed.

Lemma initialize_idempotent_witness :
  let env := Fixture.env_of Fixture.detector in
  let w := run env [OpInitialize] (boot Fixture.fresh) in
  is_initialized (svc w) = true /\
  trace w = [EvLog INFO; EvConstruct default_model_path;
             EvInvoke warm_up_frame None; EvLog INFO] /\
  initialize env w = (inr tt, w).
Proof.
  cbv zeta. split; [reflexivity|]. split; [reflexivity|].
  apply (initialize_idempotent (Fixture.env_of Fixture.detector)).
  reflexivity.
Defined.

(** C1. Single-flight gating: while the gate is held, [process_frame]
    returns at once (the frame is dropped) and leaves the world as it is:
    the stored batch, the metrics and every other field of the service are
    unchanged and the trace gains no event, so the backend is not
    invoked. *)
Theorem single_flight_drop (env : Env) (image : Image) (w : World) :
  _processing_lock (svc w) = true ->
  process_frame_start env image w = (inr None, w) /\
  process_frame env image w = (inr tt, w).
Proof.
  intros H.
  assert (Hs : process_frame_start env image w = (inr None, w)).
  { rewrite process_frame_start_eq, H. reflexivity. }
  split; [exact Hs|].
  unfold process_frame, bind. rewrite Hs. reflexivity.
Qed.

Lemma single_flight_drop_witness :
  let env := Fixture.env_of Fixture.detector in
  let w := run env [OpProcessStart Fixture.frame] (boot Fixture.fresh) in
  _processing_lock (svc w) = true /\
  process_frame_start env Fixture.frame w = (inr None, w) /\
  process_frame env Fixture.frame w = (inr tt, w).
Proof.
  cbv zeta. split; [reflexivity|].
  apply (single_flight_drop (Fixture.env_of Fixture.detector)).
  reflexivity.
Defined.

(** C9. Initialization errors escape [detect]: when the service is not
    initialized and the lazy [initialize] of line 107 raises, [detect]
    raises the same exception to its caller, in the world [initialize]
    left; it does not return the empty batch.  The call is outside the
    [try] block, which only covers what follows it. *)
Theorem initialization_error_escapes_detect
  (env : Env) (image : Image) (w w' : World) (e : Exn) :
  is_initialized (svc w) = false ->
  initialize env w = (inl e, w') ->
  detect_start env image w = (inl e, w') /\
  detect env image w = (inl e, w') /\
  fst (detect env image w) <> inr [].
Proof.
  intros _ Hi.
  assert (Hs : detect_start env image w = (inl e, w')).
  { rewrite detect_start_eq, Hi. reflexivity. }
  assert (Hd : detect env image w = (inl e, w')).
  { unfold detect, bind. rewrite Hs. reflexivity. }
  rewrite Hd. cbn [fst]. split; [exact Hs|]. split; [reflexivity|]. discriminate.
Qed.

Lemma initialization_error_escapes_detect_witness :
  let env := Fixture.env_broken in
  let w := boot Fixture.fresh in
  let w' := logged w [EvLog INFO; EvConstruct default_model_path; EvLog ERROR] in
  let e := BackendError "no such file" in
  detect_start env Fixture.frame w = (inl e, w') /\
  detect env Fixture.frame w = (inl e, w') /\
  fst (detect env Fixture.frame w) <> inr [].
Proof.
  cbv zeta.
  apply (initialization_error_escapes_detect Fixture.env_broken Fixture.frame
           (boot Fixture.fresh)); reflexivity.
Defined.




(** ** The stored batch *)

Lemma detect_finish_batch env p w :
  fst (detect_finish env p w) =
  match escaping p with
  | Some e => inl e
  | None => inr (batch_of p w)
  end.
Proof.
  rewrite detect_finish_eq, detect_body_eq. unfold batch_of, escaping.
  destruct (awaited p) as [e|results].
  - destruct (is_Exception e); reflexivity.
  - destruct (fst (decode results w)) as [e|d] eqn:Ed; [|reflexivity].
    rewrite (decode_raises results w e Ed). reflexivity.
Qed.

Lemma batch_of_failed p w e : inference_error p w = Some e -> batch_of p w = [].
Proof.
  unfold inference_error, batch_of.
  destruct (awaited p) as [e0|results]; [reflexivity|].
  destruct (fst (decode results w)); [reflexivity|discriminate].
Qed.

Lemma batch_of_decoded p w results detections :
  awaited p = inr results -> fst (decode results w) = inr detections ->
  batch_of p w = detections.
Proof. unfold batch_of. intros -> ->. reflexivity. Qed.

Lemma detect_finish_svc env p w :
  svc (snd (detect_finish env p w)) =
  match latency_of env p w with
  | Some l => record_inference l (svc w)
  | None => svc w
  end.
Proof.
  unfold latency_of. rewrite detect_finish_eq, detect_body_eq.
  destruct (awaited p) as [e|results]; [destruct (is_Exception e); reflexivity|].
  destruct (fst (decode results w)) as [e|d]; [|reflexivity].
  destruct (is_Exception e); reflexivity.
Qed.

Lemma detect_finish_current env p w :
  current_detections (svc (snd (detect_finish env p w))) =
  current_detections (svc w).
Proof.
  rewrite detect_finish_svc. destruct (latency_of env p w); reflexivity.
Qed.

Lemma detect_start_current env image w :
  current_detections (svc (snd (detect_start env image w))) =
  current_detections (svc w).
Proof.
  rewrite detect_start_svc. apply (initialize_frame env w).
Qed.

Lemma process_frame_start_current env image w :
  current_detections (svc (snd (process_frame_start env image w))) =
  current_detections (svc w).
Proof.
  rewrite process_frame_start_eq.
  destruct (_processing_lock (svc w)); [reflexivity|].
  pose proof (detect_start_current env image (with_lock true w)) as H.
  destruct (detect_start env image (with_lock true w)) as [[e|p] w1];
    cbn [snd with_lock svc set_processing_lock current_detections] in *;
    exact H.
Qed.

Lemma process_frame_finish_current env p w :
  current_detections (svc (snd (process_frame_finish env p w))) =
  match escaping p with
  | Some _ => current_detections (svc w)
  | None => batch_of p w
  end.
Proof.
  rewrite process_frame_finish_eq.
  pose proof (detect_finish_batch env p w) as H.
  pose proof (detect_finish_current env p w) as Hc.
  destruct (detect_finish env p w) as [[e|d] w1]; cbn [fst snd] in *;
    destruct (escaping p); try discriminate.
  - exact Hc.
  - injection H as ->. reflexivity.
Qed.

(** C6, as stated, fails: after a frame with two detections, a frame on
    which the backend raises is not dropped, and [process_frame] stores the
    empty batch [detect] returned over the two detections. *)
Lemma failed_frame_clears_batch :
  let env := Fixture.env_of Fixture.picky in
  let w := run env [OpProcessFrame Fixture.frame] (boot Fixture.fresh) in
  length (current_detections (svc w)) = 2%nat /\
  current_detections (svc (exec env (OpProcessFrame Fixture.empty_frame) w)) = [] /\
  ~ failed_frame_keeps_batch env Fixture.empty_frame w.
Proof.
  cbv zeta. split; [vm_compute; reflexivity|].
  split; [vm_compute; reflexivity|].
  intros H. unfold failed_frame_keeps_batch in H.
  destruct (process_frame_start (Fixture.env_of Fixture.picky)
              Fixture.empty_frame
              (run (Fixture.env_of Fixture.picky) [OpProcessFrame Fixture.frame]
                 (boot Fixture.fresh))) as [[e|[p|]] w1] eqn:E;
    vm_compute in E; try discriminate.
  injection E as <- <-.
  specialize (H _ _ (BackendError "empty frame") eq_refl).
  apply (f_equal length) in H.
  - vm_compute in H. discriminate.
  - vm_compute. reflexivity.
Qed.

(** C6, amended. The stored batch is written by [process_frame] only, at
    line 170, with whatever the awaited [detect] returned: the decoded
    batch when the inference succeeded and the empty batch when it failed
    ([batch_of]).  A dropped frame, a frame whose [detect] raises (its
    lazy initialization fails, or the [await] delivers an exception that
    [except Exception] does not catch), and every other operation leave it
    unchanged. *)
Theorem batch_lifecycle (env : Env) (op : Op) (w : World) :
  current_detections (svc (exec env op w)) =
  match op with
  | OpProcessFinish p =>
      match escaping p with
      | None => batch_of p w
      | Some _ => current_detections (svc w)
      end
  | OpProcessFrame image =>
      match process_frame_start env image w with
      | (inr (Some p), w1) =>
          match escaping p with
          | None => batch_of p w1
          | Some _ => current_detections (svc w)
          end
      | _ => current_detections (svc w)
      end
  | _ => current_detections (svc w)
  end.
Proof.
  destruct op as [|image|p|image|image|p|image| |]; cbn [exec].
  - apply (initialize_frame env w).
  - apply detect_start_current.
  - apply detect_finish_current.
  - unfold detect, bind.
    pose proof (detect_start_current env image w) as Hs.
    destruct (detect_start env image w) as [[e|p] w1]; cbn [snd] in *;
      [exact Hs|].
    rewrite detect_finish_current. exact Hs.
  - apply process_frame_start_current.
  - apply process_frame_finish_current.
  - unfold process_frame, bind.
    pose proof (process_frame_start_current env image w) as Hs.
    destruct (process_frame_start env image w) as [[e|[p|]] w1]; cbn [snd] in *.
    + exact Hs.
    + rewrite process_frame_finish_current, Hs. reflexivity.
    + exact Hs.
  - reflexivity.
  - reflexivity.
Qed.

(** ** Readiness *)

Lemma same_load_refl s : same_load s s.
Proof. repeat split. Qed.

Lemma same_load_trans a b c : same_load a b -> same_load b c -> same_load a c.
Proof. unfold same_load. intuition congruence. Qed.

Lemma init_step_same env s s' : same_load s s' -> init_step env s s'.
Proof. unfold same_load, init_step. intros (_ & Hm & Hi). left. split; congruence. Qed.

Lemma init_step_proper env a a' b b' :
  same_load a a' -> same_load b b' -> init_step env a b -> init_step env a' b'.
Proof.
  unfold same_load, init_step, loaded_by.
  intros (Hp & Hm & Hi) (Hp' & Hm' & Hi') [[H1 H2] | (H1 & H2 & ctor & m & r & H)].
  - left. split; [congruence|]. intros H. rewrite <- Hm', <- Hm. apply H2. congruence.
  - right. split; [congruence|]. split; [congruence|].
    exists ctor, m, r. rewrite <- Hp, <- Hm'. exact H.
Qed.

Lemma initialize_init_step env w :
  init_step env (svc w) (svc (snd (initialize env w))).
Proof.
  rewrite initialize_eq. unfold init_step, loaded_by.
  destruct (is_initialized (svc w)) eqn:Ei; [left; cbn; rewrite Ei; auto|].
  destruct (ultralytics env) as [ctor|] eqn:Eu; [|left; cbn; rewrite Ei; auto].
  cbv zeta. destruct (ctor (model_path (svc w))) as [e|m] eqn:Ec;
    [left; cbn; rewrite Ei; auto|].
  destruct (call m warm_up_frame None) as [e|r] eqn:Ew.
  - left. cbn. rewrite Ei. split; [reflexivity|discriminate].
  - right. cbn. split; [reflexivity|]. split; [reflexivity|].
    exists ctor, m, r. auto.
Qed.

Lemma detect_start_init_step env image w :
  init_step env (svc w) (svc (snd (detect_start env image w))).
Proof. rewrite detect_start_svc. apply initialize_init_step. Qed.

Lemma detect_finish_same_load env p w :
  same_load (svc w) (svc (snd (detect_finish env p w))).
Proof.
  rewrite detect_finish_svc. destruct (latency_of env p w); repeat split.
Qed.

Lemma process_frame_start_init_step env image w :
  init_step env (svc w) (svc (snd (process_frame_start env image w))).
Proof.
  rewrite process_frame_start_eq.
  destruct (_processing_lock (svc w)); [apply init_step_same, same_load_refl|].
  pose proof (detect_start_init_step env image (with_lock true w)) as H.
  destruct (detect_start env image (with_lock true w)) as [[e|p] w1];
    cbn [snd] in *.
  - eapply init_step_proper; [| |exact H]; repeat split.
  - eapply init_step_proper; [| |exact H]; repeat split.
Qed.

Lemma process_frame_finish_same_load env p w :
  same_load (svc w) (svc (snd (process_frame_finish env p w))).
Proof.
  rewrite process_frame_finish_eq.
  pose proof (detect_finish_same_load env p w) as H.
  destruct (detect_finish env p w) as [[e|d] w1]; cbn [snd] in *;
    (eapply same_load_trans; [exact H|]); repeat split.
Qed.

Lemma exec_init_step env op w :
  init_step env (svc w) (svc (exec env op w)).
Proof.
  destruct op as [|image|p|image|image|p|image| |]; cbn [exec].
  - apply initialize_init_step.
  - apply detect_start_init_step.
  - apply init_step_same, detect_finish_same_load.
  - unfold detect, bind.
    pose proof (detect_start_init_step env image w) as Hs.
    destruct (detect_start env image w) as [[e|p] w1]; cbn [snd] in *;
      [exact Hs|].
    eapply init_step_proper;
      [apply same_load_refl | apply detect_finish_same_load | exact Hs].
  - apply process_frame_start_init_step.
  - apply init_step_same, process_frame_finish_same_load.
  - unfold process_frame, bind.
    pose proof (process_frame_start_init_step env image w) as Hs.
    destruct (process_frame_start env image w) as [[e|[p|]] w1]; cbn [snd] in *;
      try exact Hs.
    eapply init_step_proper;
      [apply same_load_refl | apply process_frame_finish_same_load | exact Hs].
  - apply init_step_same, same_load_refl.
  - apply init_step_same, same_load_refl.
Qed.

Lemma init_step_ready_inv env s s' :
  init_step env s s' -> ready_inv s -> ready_inv s'.
Proof.
  unfold init_step, loaded_by, ready_inv.
  intros [[Hi Hm] | (_ & _ & ctor & m & r & _ & _ & _ & H)] Hinv Hr; [|eauto].
  rewrite Hi in Hr. rewrite (Hm Hr). auto.
Qed.

(** C10. Readiness invariant.  A new service satisfies "initialized
    implies a model is held"; every operation preserves it, never resets
    [is_initialized] from true to false, and turns it from false to true
    only when the model was constructed and its warm-up inference
    returned, storing that model. *)
Theorem readiness_invariant (env : Env) :
  (forall path c s, __init__ env path c = inr s -> ready_inv s) /\
  (forall op w,
     let s := svc w in
     let s' := svc (exec env op w) in
     (ready_inv s -> ready_inv s') /\
     (is_initialized s = true -> is_initialized s' = true) /\
     (is_initialized s = false -> is_initialized s' = true ->
      loaded_by env s s')).
Proof.
  split.
  - unfold __init__, ready_inv. intros path c s H.
    destruct (negb (YOLO_AVAILABLE env)); [discriminate|].
    injection H as <-. cbn. discriminate.
  - intros op w. cbv zeta.
    pose proof (exec_init_step env op w) as H.
    split; [apply (init_step_ready_inv env _ _ H)|].
    destruct H as [[Hi Hm] | Hl].
    + split; congruence.
    + destruct Hl as (H0 & H1 & Hx). split; [auto|].
      intros _ _. split; [exact H0|]. split; [exact H1|exact Hx].
Qed.

Lemma readiness_invariant_witness :
  let env := Fixture.env_of Fixture.detector in
  let w := boot Fixture.fresh in
  ready_inv (svc w) /\
  ready_inv (svc (exec env (OpDetect Fixture.frame) w)) /\
  loaded_by env (svc w) (svc (exec env (OpDetect Fixture.frame) w)).
Proof.
  cbv zeta.
  destruct (readiness_invariant (Fixture.env_of Fixture.detector)) as [Hnew Hop].
  pose proof (Hnew default_model_path default_confidence Fixture.fresh eq_refl)
    as Hinv.
  destruct (Hop (OpDetect Fixture.frame) (boot Fixture.fresh)) as (H1 & _ & H3).
  split; [exact Hinv|]. split; [exact (H1 Hinv)|].
  apply H3; vm_compute; reflexivity.
Defined.

(** The invariant holds in every state a service can reach. *)
Corollary reachable_ready env path c s ops :
  __init__ env path c = inr s -> ready_inv (svc (run env ops (boot s))).
Proof.
  intros H.
  assert (H0 : ready_inv (svc (boot s))).
  { unfold __init__ in H. destruct (negb (YOLO_AVAILABLE env)); [discriminate|].
    injection H as <-. unfold ready_inv. cbn. discriminate. }
  clear H. unfold run. revert H0. generalize (boot s) as w.
  induction ops as [|op ops IH]; intros w Hw; cbn [fold_left]; [exact Hw|].
  apply IH. eapply init_step_ready_inv; [apply exec_init_step|exact Hw].
Qed.

(** ** Metrics *)

Lemma initialize_metrics env w :
  metrics_of (svc (snd (initialize env w))) = metrics_of (svc w).
Proof.
  unfold metrics_of. pose proof (initialize_frame env w) as H. cbv zeta in H.
  destruct H as (-> & -> & -> & _). reflexivity.
Qed.

Lemma detect_start_metrics env image w :
  metrics_of (svc (snd (detect_start env image w))) = metrics_of (svc w).
Proof. rewrite detect_start_svc. apply initialize_metrics. Qed.

Lemma detect_finish_metrics env p w :
  metrics_of (svc (snd (detect_finish env p w))) =
  bump (latency_of env p w) (metrics_of (svc w)).
Proof.
  rewrite detect_finish_svc. destruct (latency_of env p w); reflexivity.
Qed.

Lemma process_frame_start_metrics env image w :
  metrics_of (svc (snd (process_frame_start env image w))) = metrics_of (svc w).
Proof.
  rewrite process_frame_start_eq.
  destruct (_processing_lock (svc w)); [reflexivity|].
  pose proof (detect_start_metrics env image (with_lock true w)) as H.
  destruct (detect_start env image (with_lock true w)) as [[e|p] w1];
    cbn [snd] in *; exact H.
Qed.

Lemma process_frame_finish_metrics env p w :
  metrics_of (svc (snd (process_frame_finish env p w))) =
  bump (latency_of env p w) (metrics_of (svc w)).
Proof.
  rewrite process_frame_finish_eq.
  pose proof (detect_finish_metrics env p w) as H.
  destruct (detect_finish env p w) as [[e|d] w1]; cbn [snd] in *; exact H.
Qed.

Lemma exec_metrics env op w :
  metrics_of (svc (exec env op w)) = bump (recorded env op w) (metrics_of (svc w)).
Proof.
  destruct op as [|image|p|image|image|p|image| |]; cbn [exec recorded bump].
  - apply initialize_metrics.
  - apply detect_start_metrics.
  - apply detect_finish_metrics.
  - unfold detect, bind.
    pose proof (detect_start_metrics env image w) as Hs.
    destruct (detect_start env image w) as [[e|p] w1]; cbn [snd] in *;
      [exact Hs|].
    rewrite detect_finish_metrics, Hs. reflexivity.
  - apply process_frame_start_metrics.
  - apply process_frame_finish_metrics.
  - unfold process_frame, bind.
    pose proof (process_frame_start_metrics env image w) as Hs.
    destruct (process_frame_start env image w) as [[e|[p|]] w1]; cbn [snd] in *;
      try exact Hs.
    rewrite process_frame_finish_metrics, Hs. reflexivity.
  - reflexivity.
  - reflexivity.
Qed.

Lemma exec_total_inferences env op w :
  total_inferences (svc (exec env op w)) =
  total_inferences (svc w) +
  match recorded env op w with Some _ => 1 | None => 0 end.
Proof.
  pose proof (exec_metrics env op w) as H. unfold metrics_of in H.
  destruct (recorded env op w); cbn [bump] in H; injection H as _ -> _; lia.
Qed.

Lemma run_metrics env ops : forall w,
  total_inferences (svc (run env ops w)) =
    total_inferences (svc w) + Z.of_nat (length (latencies env ops w)) /\
  total_inference_time (svc (run env ops w)) =
    fold_left PrimFloat.add (latencies env ops w) (total_inference_time (svc w)).
Proof.
  unfold run.
  induction ops as [|op ops IH]; intros w; cbn [fold_left latencies].
  - cbn. split; [lia|reflexivity].
  - destruct (IH (exec env op w)) as [IHn IHt]. rewrite IHn, IHt.
    pose proof (exec_metrics env op w) as H. unfold metrics_of in H.
    destruct (recorded env op w) as [l|]; cbn [bump] in H;
      injection H as _ -> ->; cbn [length fold_left]; split; (lia || reflexivity).
Qed.

Lemma run_total_inferences_mono env ops : forall w,
  total_inferences (svc w) <= total_inferences (svc (run env ops w)).
Proof.
  intros w. destruct (run_metrics env ops w) as [-> _]. lia.
Qed.

(** C3. Metrics correctness and monotonicity.  Take a new service and
    any run of operations on it, and let [ls] be the latencies of the
    inferences that completed successfully along the run, [N] their
    number.  Then the snapshot has [total_detections = N];
    [avg_latency_ms] is [0.0] when [N = 0] and otherwise the float
    [(sum ls / N) * 1000], the sum taken left to right; and
    [total_inferences] does not decrease along any operation or run. *)
Theorem metrics_snapshot
  (env : Env) (path : string) (c : float) (s : ObjectDetectionService)
  (ops : list Op) :
  __init__ env path c = inr s ->
  let w := run env ops (boot s) in
  let ls := latencies env ops (boot s) in
  let N := Z.of_nat (length ls) in
  get_metrics (svc w) !! "total_detections" = Some (VInt N) /\
  get_metrics (svc w) !! "avg_latency_ms" =
    Some (VFloat (match ls with
                  | [] => 0
                  | _ => (fsum ls / Py.float_of_int N) * 1000
                  end)%float) /\
  (forall op w0,
     total_inferences (svc w0) <= total_inferences (svc (exec env op w0))) /\
  (forall ops' w0,
     total_inferences (svc w0) <= total_inferences (svc (run env ops' w0))).
Proof.
  intros Hnew. cbv zeta.
  assert (H0 : total_inferences s = 0 /\ total_inference_time s = 0%float).
  { unfold __init__ in Hnew. destruct (negb (YOLO_AVAILABLE env)); [discriminate|].
    injection Hnew as <-. split; reflexivity. }
  destruct H0 as [Hn0 Ht0].
  destruct (run_metrics env ops (boot s)) as [Hn Ht].
  cbn [boot svc] in Hn, Ht. rewrite Hn0 in Hn. rewrite Ht0 in Ht.
  rewrite Z.add_0_l in Hn.
  unfold get_metrics. rewrite Hn, Ht.
  split; [apply lookup_insert_eq|].
  split.
  - rewrite lookup_insert_ne by discriminate. rewrite lookup_insert_eq.
    destruct (latencies env ops (boot s)) as [|l ls]; [reflexivity|].
    replace (0 <? Z.of_nat (length (l :: ls))) with true
      by (symmetry; apply Z.ltb_lt; cbn [length]; lia).
    reflexivity.
  - split.
    + intros op w0. rewrite exec_total_inferences.
      destruct (recorded env op w0); lia.
    + intros ops' w0. apply run_total_inferences_mono.
Qed.

Lemma metrics_snapshot_witness :
  let env := Fixture.env_of Fixture.segmenter in
  let ops := [OpProcessFrame Fixture.frame; OpGetMetrics; OpDetect Fixture.frame;
              OpDetect Fixture.frame] in
  let w := run env ops (boot Fixture.fresh) in
  latencies env ops (boot Fixture.fresh) = [0.5; 0.5; 0.5]%float /\
  get_metrics (svc w) !! "total_detections" = Some (VInt 3) /\
  get_metrics (svc w) !! "avg_latency_ms" = Some (VFloat 500).
Proof.
  cbv zeta.
  destruct (metrics_snapshot (Fixture.env_of Fixture.segmenter)
              default_model_path default_confidence Fixture.fresh
              [OpProcessFrame Fixture.frame; OpGetMetrics; OpDetect Fixture.frame;
               OpDetect Fixture.frame] eq_refl) as (Hn & Ha & _).
  assert (Hl : latencies (Fixture.env_of Fixture.segmenter)
                 [OpProcessFrame Fixture.frame; OpGetMetrics;
                  OpDetect Fixture.frame; OpDetect Fixture.frame]
                 (boot Fixture.fresh) = [0.5; 0.5; 0.5]%float)
    by (vm_compute; reflexivity).
  rewrite Hl in Hn, Ha.
  split; [exact Hl|]. split; [exact Hn|exact Ha].
Defined.

(** ** Decoding *)

Lemma decode_box_inr masks i box w det w' :
  decode_box masks i box w = (inr det, w') ->
  exists coords c k cid m label,
    xyxy box !! 0%nat = Some coords /\ conf box !! 0%nat = Some c /\
    cls box !! 0%nat = Some k /\ Py.int k = inr cid /\
    model (svc w) = Some m /\ names m !! cid = Some label /\
    det = with_mask (segmentation masks i) (base_detection coords c cid label).
Proof.
  intros H. unfold decode_box, index in H. unfold_M.
  destruct (xyxy box !! 0%nat) as [coords|] eqn:E1; [|discriminate].
  destruct (conf box !! 0%nat) as [c|] eqn:E2; [|discriminate].
  destruct (cls box !! 0%nat) as [k|] eqn:E3; [|discriminate].
  destruct (Py.int k) as [e|cid] eqn:E4; [discriminate|].
  destruct (model (svc w)) as [m|] eqn:E5; [|discriminate].
  destruct (names m !! cid) as [label|] eqn:E6; [|discriminate].
  exists coords, c, k, cid, m, label.
  repeat (split; [first [reflexivity | assumption]|]).
  unfold segmentation, base_detection, with_mask.
  destruct masks as [ms|]; [|congruence].
  destruct (xy ms !! i) as [seg|]; [|discriminate].
  destruct seg as [[|pt pts]|]; congruence.
Qed.

Lemma decode_loop_inr masks bs : forall i0 w dets w',
  decode_loop masks i0 bs w = (inr dets, w') ->
  length dets = length bs /\
  forall j box det,
    bs !! j = Some box -> dets !! j = Some det ->
    decode_box masks (i0 + j) box w = (inr det, w).
Proof.
  induction bs as [|b bs IH]; intros i0 w dets w' H; cbn [decode_loop] in H.
  - injection H as <- _. split; [reflexivity|]. intros j box det Hb. discriminate.
  - apply bind_inr in H as (d & w1 & Hd & H).
    pose proof (decode_box_ro masks i0 b w) as Hro. rewrite Hd in Hro.
    cbn [snd] in Hro. subst w1.
    apply bind_inr in H as (ds & w2 & Hl & H).
    injection H as <- _.
    destruct (IH _ _ _ _ Hl) as [Hlen Hnth].
    split; [cbn [length]; congruence|].
    intros [|j] box det Hb Hdet; cbn in Hb, Hdet.
    + injection Hb as <-. injection Hdet as <-.
      rewrite Nat.add_0_r. exact Hd.
    + rewrite Nat.add_succ_r. apply (Hnth j box det Hb Hdet).
Qed.

Lemma decode_inr results w dets w' :
  decode results w = (inr dets, w') ->
  length dets = length (frame_boxes results) /\
  forall j box det,
    frame_boxes results !! j = Some box -> dets !! j = Some det ->
    decode_box (frame_masks results) j box w = (inr det, w).
Proof.
  unfold decode, frame_boxes, frame_masks. intros H.
  destruct results as [[|result rest]|].
  - injection H as <- _. split; [reflexivity|]. intros j box det Hb. discriminate.
  - destruct (boxes result) as [bs|]; [|discriminate].
    apply (decode_loop_inr _ _ 0%nat _ _ _ H).
  - injection H as <- _. split; [reflexivity|]. intros j box det Hb. discriminate.
Qed.

Lemma dom_base_detection coords c cid label :
  dom (base_detection coords c cid label)
  = ({["box"; "label"; "class_id"; "conf"]} : gset string).
Proof.
  unfold base_detection. rewrite !dom_insert_L, dom_singleton_L. set_solver.
Qed.

Lemma base_detection_no_mask coords c cid label :
  base_detection coords c cid label !! "mask" = None.
Proof.
  unfold base_detection. simplify_map_eq. reflexivity.
Qed.

(** C8. Schema and order of the decoded batch.  When decoding succeeds
    there is one detection per backend box, at the same position.  The
    detection at position [i] has exactly the keys [box], [label],
    [class_id], [conf], plus [mask] if and only if the backend gave a
    non-empty polygon for object [i]; [mask] then holds, for each point
    [(x, y)] of that polygon and in the polygon's order, the list
    [[x, y]], so it is never empty, and it is absent otherwise.  Its class
    id is the one of
    box [i], its label is that id's entry of the class-name table, and the
    whole detection is the one built from box [i] alone. *)
Theorem decoded_schema_and_order
  (results : option (list Results)) (w w' : World) (dets : list Detection) :
  decode results w = (inr dets, w') ->
  length dets = length (frame_boxes results) /\
  forall i box det,
    frame_boxes results !! i = Some box -> dets !! i = Some det ->
    let seg := segmentation (frame_masks results) i in
    dom det = ({["box"; "label"; "class_id"; "conf"]} : gset string)
              ∪ (match seg with Some _ => {["mask"]} | None => ∅ end) /\
    det !! "mask" = (tolist <$> seg) /\
    (forall pts, seg = Some pts ->
       pts <> [] /\
       det !! "mask" =
         Some (VList (map (fun pt => VList [VFloat (fst pt); VFloat (snd pt)])
                        pts))) /\
    (seg = None -> det !! "mask" = None) /\
    exists coords c k cid m label,
      xyxy box !! 0%nat = Some coords /\ conf box !! 0%nat = Some c /\
      cls box !! 0%nat = Some k /\ Py.int k = inr cid /\
      model (svc w) = Some m /\ names m !! cid = Some label /\
      det !! "class_id" = Some (VInt cid) /\
      det !! "label" = Some (VStr label) /\
      det = with_mask seg (base_detection coords c cid label).
Proof.
  intros H. destruct (decode_inr _ _ _ _ H) as [Hlen Hnth].
  split; [exact Hlen|]. intros i box det Hb Hd. cbv zeta.
  specialize (Hnth i box det Hb Hd).
  apply decode_box_inr in Hnth as
    (coords & c & k & cid & m & label & Hx & Hc & Hk & Hcid & Hm & Hl & ->).
  split; [|split; [|split; [|split]]].
  - destruct (segmentation (frame_masks results) i) as [pts|]; cbn [with_mask].
    + rewrite dom_insert_L, dom_base_detection. set_solver.
    + rewrite dom_base_detection. set_solver.
  - destruct (segmentation (frame_masks results) i) as [pts|];
      cbn [with_mask fmap option_fmap option_map].
    + apply lookup_insert_eq.
    + apply base_detection_no_mask.
  - intros pts Hs. split.
    + unfold segmentation in Hs.
      destruct (frame_masks results) as [ms|]; [|discriminate].
      destruct (xy ms !! i) as [[[|pt pts']|]|]; try discriminate.
      injection Hs as <-. discriminate.
    + rewrite Hs. cbn [with_mask]. rewrite lookup_insert_eq.
      unfold tolist. do 2 f_equal. apply List.map_ext.
      intros [x y]. reflexivity.
  - intros Hs. rewrite Hs. apply base_detection_no_mask.
  - exists coords, c, k, cid, m, label. repeat (split; [assumption|]).
    unfold base_detection.
    destruct (segmentation (frame_masks results) i) as [pts|]; cbn [with_mask];
      (split; [|split]); simplify_map_eq; reflexivity.
Qed.

Lemma decoded_schema_and_order_witness :
  let env := Fixture.env_of Fixture.segmenter in
  let w := run env [OpInitialize] (boot Fixture.fresh) in
  let results := Some [{| boxes := Some [Fixture.person; Fixture.car];
                          masks := Some {| xy := [Some Fixture.polygon; Some []] |} |}] in
  let d0 := with_mask (Some Fixture.polygon)
              (base_detection [10.249; 20.251; 30.0; 40.0]%float 0.91%float 0 "person") in
  let d1 := base_detection [1.0; 2.0; 3.0; 4.0]%float 0.40%float 2 "car" in
  decode results w = (inr [d0; d1], w) /\
  dom d0 = ({["box"; "label"; "class_id"; "conf"; "mask"]} : gset string) /\
  dom d1 = ({["box"; "label"; "class_id"; "conf"]} : gset string) /\
  d0 !! "mask" = Some (VList [VList [VFloat 1.5; VFloat 2.5];
                              VList [VFloat 3.5; VFloat 4.5];
                              VList [VFloat 5.5; VFloat 6.5]]) /\
  d1 !! "mask" = None.
Proof.
  cbv zeta.
  set (w := run (Fixture.env_of Fixture.segmenter) [OpInitialize] (boot Fixture.fresh)).
  set (results := Some [{| boxes := Some [Fixture.person; Fixture.car];
                           masks := Some {| xy := [Some Fixture.polygon; Some []] |} |}]).
  set (d0 := with_mask _ _). set (d1 := base_detection _ _ _ _).
  assert (E : decode results w = (inr [d0; d1], w)) by (vm_compute; reflexivity).
  destruct (decoded_schema_and_order results w w [d0; d1] E) as [_ Hnth].
  destruct (Hnth 0%nat Fixture.person d0 eq_refl eq_refl)
    as (Hd0 & _ & Hm0 & _).
  destruct (Hnth 1%nat Fixture.car d1 eq_refl eq_refl)
    as (Hd1 & _ & _ & Hm1 & _).
  change (segmentation (frame_masks results) 0) with (Some Fixture.polygon) in *.
  change (segmentation (frame_masks results) 1) with (@None (list (float * float))) in *.
  split; [exact E|].
  split; [rewrite Hd0; set_solver|].
  split; [rewrite Hd1; set_solver|].
  split; [exact (proj2 (Hm0 Fixture.polygon eq_refl))|exact (Hm1 eq_refl)].
Defined.

(** ** Rounding *)

(** [half_even num den] is a nearest integer of [num / den]: it is off by
    at most one half, and on a tie it is the even neighbour. *)
Lemma half_even_nearest num den :
  0 < den ->
  let k := Py.half_even num den in
  Z.abs (2 * (num - k * den)) <= den /\
  (Z.abs (2 * (num - k * den)) = den -> Z.even k = true).
Proof.
  intros Hden. unfold Py.half_even.
  pose proof (Z.div_mod num den ltac:(lia)) as Hdm.
  pose proof (Z.mod_pos_bound num den Hden) as Hr.
  set (q := num / den) in *. set (r := num mod den) in *.
  destruct (Z.compare_spec (2 * r) den) as [Heq|Hlt|Hgt]; cbv zeta.
  - destruct (Z.even q) eqn:Ev.
    + split; [nia|auto].
    + split; [nia|]. intros _. rewrite Z.even_add, Ev. reflexivity.
  - split; [nia|]. intros H. nia.
  - split; [nia|]. intros H. nia.
Qed.

(** C5. Decode rounding.  In every decoded detection the [box] entry is
    the list of the backend's coordinates, each rounded with
    [round(c, 1)], and the [conf] entry is the backend's confidence rounded
    with [round(conf, 2)].  On the backend box [10.249, 20.251, 30.0, 40.0]
    this gives [10.2, 20.3, 30.0, 40.0], and on the confidence 0.8675 it
    gives 0.87. *)
Theorem decode_rounding :
  (forall results w w' dets,
     decode results w = (inr dets, w') ->
     forall i box det,
       frame_boxes results !! i = Some box -> dets !! i = Some det ->
       exists coords c,
         xyxy box !! 0%nat = Some coords /\ conf box !! 0%nat = Some c /\
         det !! "box" = Some (VList (map (fun x => VFloat (Py.round x 1)) coords)) /\
         det !! "conf" = Some (VFloat (Py.round c 2))) /\
  map (fun x => Py.round x 1) [10.249; 20.251; 30.0; 40.0]%float
    = [10.2; 20.3; 30.0; 40.0]%float /\
  Py.round 0.8675%float 2 = 0.87%float.
Proof.
  split; [|split; vm_compute; reflexivity].
  intros results w w' dets H i box det Hb Hd.
  destruct (decode_inr _ _ _ _ H) as [_ Hnth].
  specialize (Hnth i box det Hb Hd).
  apply decode_box_inr in Hnth as
    (coords & c & k & cid & m & label & Hx & Hc & _ & _ & _ & _ & ->).
  exists coords, c. split; [exact Hx|]. split; [exact Hc|].
  unfold base_detection.
  destruct (segmentation (frame_masks results) i) as [pts|]; cbn [with_mask];
    split; simplify_map_eq; reflexivity.
Qed.

Lemma decode_rounding_witness :
  let env := Fixture.env_of Fixture.detector in
  let w := run env [OpInitialize] (boot Fixture.fresh) in
  let results := Some [{| boxes := Some [Fixture.precise]; masks := None |}] in
  let det := base_detection [10.249; 20.251; 30.0; 40.0]%float 0.8675%float 0
               "person" in
  decode results w = (inr [det], w) /\
  det !! "box" = Some (VList [VFloat 10.2; VFloat 20.3; VFloat 30.0; VFloat 40.0]) /\
  det !! "conf" = Some (VFloat 0.87).
Proof.
  cbv zeta.
  set (w := run (Fixture.env_of Fixture.detector) [OpInitialize] (boot Fixture.fresh)).
  set (results := Some [{| boxes := Some [Fixture.precise]; masks := None |}]).
  set (det := base_detection _ _ _ _).
  assert (E : decode results w = (inr [det], w)) by (vm_compute; reflexivity).
  destruct decode_rounding as (Hgen & Hbox & Hconf).
  destruct (Hgen results w w [det] E 0%nat Fixture.precise det eq_refl eq_refl)
    as (coords & c & Hx & Hc & Hb & Hf).
  injection Hx as <-. injection Hc as <-.
  split; [exact E|].
  split.
  - rewrite Hb. vm_compute. reflexivity.
  - rewrite Hf. vm_compute. reflexivity.
Defined.

(** ** The backend fixture, end to end *)

(** Two objects, "person" at 0.91 and "car" at 0.40, threshold 0.25: the
    batch has both, in that order, and one inference is counted. *)
Example end_to_end :
  let env := Fixture.env_of Fixture.detector in
  match detect env Fixture.frame (boot Fixture.fresh) with
  | (inr [d0; d1], w) =>
      d0 !! "label" = Some (VStr "person") /\ d0 !! "conf" = Some (VFloat 0.91) /\
      d1 !! "label" = Some (VStr "car") /\ d1 !! "conf" = Some (VFloat 0.4) /\
      get_metrics (svc w) !! "total_detections" = Some (VInt 1) /\
      get_metrics (svc w) !! "last_latency_ms" = Some (VFloat 500)
  | _ => False
  end.
Proof. vm_compute. repeat split. Qed.

Example constructed_is_fresh :
  __init__ (Fixture.env_of Fixture.detector) default_model_path default_confidence
  = inr Fixture.fresh.
Proof. reflexivity. Qed.

Example construction_fails_without_backend :
  __init__ Fixture.env_missing default_model_path default_confidence
  = inl ImportError.
Proof. reflexivity. Qed.

Example round_tie_even : Py.round 0.25%float 1 = 0.2%float.
Proof. vm_compute. reflexivity. Qed.

Example round_binary_repr : Py.round 2.675%float 2 = 2.67%float.
Proof. vm_compute. reflexivity. Qed.

Example round_neg_zero : Py.round (-0.04)%float 1 = (-0.0)%float.
Proof. vm_compute. reflexivity. Qed.

Example round_large : Py.round 1e300%float 1 = 1e300%float.
Proof. vm_compute. reflexivity. Qed.

Example int_trunc : Py.int 2.99%float = inr 2 /\ Py.int (-2.99)%float = inr (-2).
Proof. vm_compute. split; reflexivity. Qed.

Example float_of_int_1000 : Py.float_of_int 1000 = 1000%float.
Proof. vm_compute. reflexivity. Qed.

(** * Further properties of the service *)

(** ** Which exceptions leave [detect] and [process_frame] *)

Lemma detect_fst_inl env image w e :
  fst (detect env image w) = inl e <->
  fst (initialize env w) = inl e \/
  ((exists u, fst (initialize env w) = inr u) /\
   submitted (svc (snd (initialize env w))) image = inl e /\
   is_Exception e = false).
Proof.
  unfold detect, bind. rewrite detect_start_eq.
  destruct (initialize env w) as [[e0|u] w1]; cbn [fst snd].
  - split; [intros H; left; congruence|].
    intros [H|[[u H] _]]; congruence.
  - rewrite detect_finish_inl. cbn [awaited]. split.
    + intros [H He]. right. eauto.
    + intros [H|(_ & H & He)]; [discriminate|auto].
Qed.

Lemma process_frame_fst_inl env image w e :
  fst (process_frame env image w) = inl e <->
  _processing_lock (svc w) = false /\
  (fst (initialize env w) = inl e \/
   ((exists u, fst (initialize env w) = inr u) /\
    submitted (svc (snd (initialize env w))) image = inl e /\
    is_Exception e = false)).
Proof.
  unfold process_frame, bind. rewrite process_frame_start_eq.
  destruct (_processing_lock (svc w)) eqn:El.
  - cbn [fst]. split; [discriminate|]. intros [H _]. discriminate.
  - rewrite detect_start_eq, initialize_with_lock.
    destruct (initialize env w) as [[e0|u] w1]; cbn [fst snd].
    + split; [intros H; split; [reflexivity|left; congruence]|].
      intros [_ [H|[[u H] _]]]; congruence.
    + rewrite process_frame_finish_eq.
      match goal with |- context [detect_finish env ?p ?w2] =>
        pose proof (detect_finish_inl env p w2 e) as Hf;
        destruct (detect_finish env p w2) as [[e'|d] w3] end;
        cbn [fst awaited] in *.
      * change (submitted (svc (with_lock true w1)) image)
          with (submitted (svc w1) image) in Hf.
        split.
        -- intros H. split; [reflexivity|]. right.
           split; [eauto|]. apply Hf. congruence.
        -- intros [_ [H|(_ & H & He)]]; [discriminate|].
           assert (Hx : @inl Exn (list Detection) e' = inl e) by (apply Hf; auto).
           congruence.
      * change (submitted (svc (with_lock true w1)) image)
          with (submitted (svc w1) image) in Hf.
        split; [discriminate|].
        intros [_ [H|(_ & H & He)]]; [discriminate|].
        assert (Hx : @inr Exn (list Detection) d = inl e) by (apply Hf; auto).
        discriminate Hx.
Qed.

(** X1. An exception derived from [Exception] leaves [detect] only from
    its lazy [initialize]: [detect] raises such an [e] exactly when
    [initialize] would raise [e] in the same world, and [process_frame]
    exactly when, in addition, the frame is not dropped.  On a ready
    service no such exception leaves either of them: everything the
    backend call and the decode step raise under [Exception] is caught.
    (What [except Exception] does not catch, a [CancelledError] at the
    [await] for one, does get out.) *)
Theorem only_initialization_errors_propagate
  (env : Env) (image : Image) (w : World) (e : Exn) :
  is_Exception e = true ->
  (fst (detect env image w) = inl e <-> fst (initialize env w) = inl e) /\
  (fst (process_frame env image w) = inl e <->
   _processing_lock (svc w) = false /\ fst (initialize env w) = inl e) /\
  (is_initialized (svc w) = true ->
   fst (detect env image w) <> inl e /\
   fst (process_frame env image w) <> inl e).
Proof.
  intros He.
  assert (Hd : fst (detect env image w) = inl e <-> fst (initialize env w) = inl e).
  { rewrite detect_fst_inl. split; [|auto].
    intros [H|(_ & _ & H)]; [exact H|congruence]. }
  assert (Hp : fst (process_frame env image w) = inl e <->
               _processing_lock (svc w) = false /\ fst (initialize env w) = inl e).
  { rewrite process_frame_fst_inl. split.
    - intros [Hl [H|(_ & _ & H)]]; [auto|congruence].
    - intros [Hl H]. auto. }
  split; [exact Hd|]. split; [exact Hp|].
  intros Hr.
  assert (Hi : fst (initialize env w) <> inl e).
  { rewrite initialize_eq, Hr. discriminate. }
  split; intros H; apply Hi.
  - apply Hd, H.
  - apply Hp, H.
Qed.

Lemma only_initialization_errors_propagate_witness :
  let env := Fixture.env_of Fixture.flaky in
  let w := run env [OpInitialize] (boot Fixture.fresh) in
  let e := BackendError "CUDA error" in
  submitted (svc w) Fixture.frame = inl e /\
  fst (detect env Fixture.frame w) <> inl e /\
  fst (process_frame env Fixture.frame w) <> inl e.
Proof.
  cbv zeta. split; [reflexivity|].
  apply (only_initialization_errors_propagate (Fixture.env_of Fixture.flaky)
           Fixture.frame _ (BackendError "CUDA error") eq_refl).
  reflexivity.
Defined.

(** ** An empty result is a successful inference *)

(** X2. When the backend returns nothing to decode, the resumed [detect]
    returns the empty batch as a successful inference: the latency is
    recorded, the count goes up by one and no error is logged.  (A failed
    inference returns the same empty batch but records nothing.) *)
Theorem empty_result_is_counted
  (env : Env) (p : Pending) (w : World) (results : option (list Results)) :
  awaited p = inr results ->
  nothing_detected results ->
  detect_finish env p w =
    (inr [],
     {| svc := record_inference
                 (perf_counter env (ticks w) - start_time p)%float (svc w);
        trace := trace w;
        ticks := S (ticks w) |}).
Proof.
  intros Ha Hn. rewrite detect_finish_eq, detect_body_eq, Ha.
  assert (Hd : fst (decode results w) = inr []).
  { unfold decode. destruct results as [[|result rest]|]; try reflexivity.
    cbn in Hn. rewrite Hn. reflexivity. }
  rewrite Hd. reflexivity.
Qed.

Lemma empty_result_is_counted_witness :
  let env := Fixture.env_of Fixture.detector in
  let w := run env [OpInitialize] (boot Fixture.fresh) in
  let p := {| start_time := 0.25%float;
              awaited := inr (Some [{| boxes := Some []; masks := None |}]) |} in
  fst (detect_finish env p w) = inr [] /\
  total_inferences (svc (snd (detect_finish env p w))) = 1 /\
  trace (snd (detect_finish env p w)) = trace w.
Proof.
  cbv zeta.
  rewrite (empty_result_is_counted (Fixture.env_of Fixture.detector)
             {| start_time := 0.25%float;
                awaited := inr (Some [{| boxes := Some []; masks := None |}]) |}
             (run (Fixture.env_of Fixture.detector) [OpInitialize]
                (boot Fixture.fresh))
             (Some [{| boxes := Some []; masks := None |}]) eq_refl eq_refl).
  repeat split.
Defined.

(** ** One box that does not decode *)

Lemma decode_loop_inl masks bs : forall i0 w j box e,
  bs !! j = Some box ->
  fst (decode_box masks (i0 + j) box w) = inl e ->
  exists e', decode_loop masks i0 bs w = (inl e', w).
Proof.
  induction bs as [|b bs IH]; intros i0 w j box e Hb He; [discriminate|].
  cbn [decode_loop]. unfold bind.
  pose proof (decode_box_ro masks i0 b w) as Hro.
  destruct (decode_box masks i0 b w) as [[e0|d] w1] eqn:Eb; cbn [snd] in Hro;
    subst w1; [eauto|].
  destruct j as [|j]; cbn in Hb.
  - injection Hb as <-. rewrite Nat.add_0_r, Eb in He. discriminate.
  - rewrite Nat.add_succ_r in He.
    destruct (IH (S i0) w j box e Hb He) as [e' ->]. eauto.
Qed.

(** X3. Decoding is all or nothing: if one box of the frame does not
    decode, whatever the other boxes are, the resumed [detect] logs the
    error and returns the empty batch, and records no inference. *)
Theorem one_bad_box_drops_the_batch
  (env : Env) (p : Pending) (w : World) (result : Results)
  (rest : list Results) (bs : list Boxes1) (j : nat) (box : Boxes1) (e : Exn) :
  awaited p = inr (Some (result :: rest)) ->
  boxes result = Some bs ->
  bs !! j = Some box ->
  fst (decode_box (masks result) j box w) = inl e ->
  detect_finish env p w = (inr [], logged w [EvLog ERROR]).
Proof.
  intros Ha Hbs Hb He.
  destruct (decode_loop_inl (masks result) bs 0%nat w j box e Hb He) as [e' Hl].
  apply (detect_finish_fail_open env p w e').
  - unfold inference_error. rewrite Ha. unfold decode. rewrite Hbs, Hl.
    reflexivity.
  - apply (decode_loop_raises (masks result) bs 0%nat w). rewrite Hl.
    reflexivity.
Qed.

Lemma one_bad_box_drops_the_batch_witness :
  let env := Fixture.env_of Fixture.detector in
  let w := run env [OpInitialize] (boot Fixture.fresh) in
  let result := {| boxes := Some [Fixture.person; Scenario.stray; Fixture.car];
                   masks := None |} in
  let p := {| start_time := 0.25%float; awaited := inr (Some [result]) |} in
  fst (decode_box None 1 Scenario.stray w) = inl KeyError /\
  detect_finish env p w = (inr [], logged w [EvLog ERROR]).
Proof.
  cbv zeta. split; [vm_compute; reflexivity|].
  apply (one_bad_box_drops_the_batch (Fixture.env_of Fixture.detector) _ _
           {| boxes := Some [Fixture.person; Scenario.stray; Fixture.car];
              masks := None |} [] [Fixture.person; Scenario.stray; Fixture.car]
           1%nat Scenario.stray KeyError); reflexivity.
Defined.

(** ** Decoding and the rest of the service *)

(** What [decode] returns depends on the world through [self.model]
    only. *)
Lemma decode_box_model masks i box w1 w2 :
  model (svc w1) = model (svc w2) ->
  fst (decode_box masks i box w1) = fst (decode_box masks i box w2).
Proof.
  intros H. unfold decode_box, index. unfold_M.
  destruct (xyxy box !! 0%nat); cbv beta iota; [|reflexivity].
  destruct (conf box !! 0%nat); cbv beta iota; [|reflexivity].
  destruct (cls box !! 0%nat); cbv beta iota; [|reflexivity].
  destruct (Py.int _); cbv beta iota; [reflexivity|].
  rewrite H.
  destruct (model (svc w2)); cbv beta iota; [|reflexivity].
  destruct (names _ !! _); cbv beta iota; [|reflexivity].
  destruct masks as [ms|]; [|reflexivity].
  destruct (xy ms !! i) as [[[|pt pts]|]|]; reflexivity.
Qed.

Lemma decode_loop_model masks bs : forall i w1 w2,
  model (svc w1) = model (svc w2) ->
  fst (decode_loop masks i bs w1) = fst (decode_loop masks i bs w2).
Proof.
  induction bs as [|b bs IH]; intros i w1 w2 H; cbn [decode_loop]; [reflexivity|].
  unfold bind.
  pose proof (decode_box_model masks i b w1 w2 H) as Hb.
  pose proof (decode_box_ro masks i b w1) as R1.
  pose proof (decode_box_ro masks i b w2) as R2.
  destruct (decode_box masks i b w1) as [[e1|d1] u1];
    destruct (decode_box masks i b w2) as [[e2|d2] u2];
    cbn [fst snd] in *; subst; try discriminate; [congruence|].
  injection Hb as ->.
  pose proof (IH (S i) w1 w2 H) as Hl.
  destruct (decode_loop masks (S i) bs w1) as [[e1|l1] v1];
    destruct (decode_loop masks (S i) bs w2) as [[e2|l2] v2];
    unfold ret; cbn [fst] in *; congruence.
Qed.

Lemma decode_model results w1 w2 :
  model (svc w1) = model (svc w2) ->
  fst (decode results w1) = fst (decode results w2).
Proof.
  intros H. unfold decode.
  destruct results as [[|result rest]|]; try reflexivity.
  destruct (boxes result); [|reflexivity].
  apply decode_loop_model, H.
Qed.

(** ** The gate and the rest of the service *)

Lemma detect_start_with_lock env image b w :
  detect_start env image (with_lock b w) =
  (fst (detect_start env image w), with_lock b (snd (detect_start env image w))).
Proof.
  rewrite !detect_start_eq, initialize_with_lock.
  destruct (initialize env w) as [[e|u] w1]; reflexivity.
Qed.

Lemma detect_finish_with_lock env p b w :
  detect_finish env p (with_lock b w) =
  (fst (detect_finish env p w), with_lock b (snd (detect_finish env p w))).
Proof.
  rewrite !detect_finish_eq, !detect_body_eq.
  destruct (awaited p) as [e|results]; [destruct (is_Exception e); reflexivity|].
  rewrite (decode_model results (with_lock b w) w eq_refl).
  destruct (fst (decode results w)) as [e|d]; [|reflexivity].
  destruct (is_Exception e); reflexivity.
Qed.

Lemma detect_start_lock env image w :
  _processing_lock (svc (snd (detect_start env image w))) = _processing_lock (svc w).
Proof. rewrite detect_start_svc. apply (initialize_frame env w). Qed.

Lemma detect_finish_lock env p w :
  _processing_lock (svc (snd (detect_finish env p w))) = _processing_lock (svc w).
Proof. rewrite detect_finish_svc. destruct (latency_of env p w); reflexivity. Qed.

Lemma with_lock_cancel b w :
  _processing_lock (svc w) = false -> with_lock false (with_lock b w) = w.
Proof.
  destruct w as [s tr tk]. destruct s. cbn. intros ->. reflexivity.
Qed.

Lemma process_frame_start_lock env image w :
  _processing_lock (svc (snd (process_frame_start env image w))) =
  match process_frame_start env image w with
  | (inl _, _) => false
  | (inr _, _) => true
  end.
Proof.
  rewrite process_frame_start_eq.
  destruct (_processing_lock (svc w)) eqn:El; [exact El|].
  rewrite detect_start_with_lock.
  pose proof (detect_start_lock env image w) as Hl.
  destruct (detect_start env image w) as [[e|p] w1]; cbn [fst snd] in *;
    reflexivity.
Qed.

Lemma process_frame_finish_lock env p w :
  _processing_lock (svc (snd (process_frame_finish env p w))) = false.
Proof.
  rewrite process_frame_finish_eq.
  destruct (detect_finish env p w) as [[e|d] w1]; reflexivity.
Qed.

(** X4. The life of the gate.  [process_frame] is the only operation
    that writes the lock.  Its first half leaves it held, unless the lazy
    initialization raises, in which case it is released; its second half
    always releases it; a whole [process_frame] call leaves it as it found
    it (held for a dropped frame, released otherwise).  [initialize],
    [detect] and the readers never touch it. *)
Theorem gate_lifecycle (env : Env) (op : Op) (w : World) :
  _processing_lock (svc (exec env op w)) =
  match op with
  | OpProcessStart image =>
      match process_frame_start env image w with
      | (inl _, _) => false
      | (inr _, _) => true
      end
  | OpProcessFinish p => false
  | _ => _processing_lock (svc w)
  end.
Proof.
  destruct op as [|image|p|image|image|p|image| |]; cbn [exec].
  - apply (initialize_frame env w).
  - apply detect_start_lock.
  - apply detect_finish_lock.
  - unfold detect, bind.
    pose proof (detect_start_lock env image w) as Hs.
    destruct (detect_start env image w) as [[e|p] w1]; cbn [snd] in *;
      [exact Hs|].
    rewrite detect_finish_lock. exact Hs.
  - apply process_frame_start_lock.
  - apply process_frame_finish_lock.
  - unfold process_frame, bind.
    pose proof (process_frame_start_lock env image w) as Hs.
    rewrite process_frame_start_eq in *.
    destruct (_processing_lock (svc w)) eqn:El; [exact El|].
    destruct (detect_start env image (with_lock true w)) as [[e|p] w1];
      cbn [snd] in *; [exact Hs|].
    apply process_frame_finish_lock.
  - reflexivity.
  - reflexivity.
Qed.

Lemma process_frame_unlocked_eq env image w :
  _processing_lock (svc w) = false ->
  process_frame env image w =
  match detect env image w with
  | (inr detections, w') => (inr tt, store detections w')
  | (inl e, w') => (inl e, w')
  end.
Proof.
  intros Hl. unfold process_frame, detect, bind.
  rewrite process_frame_start_eq, Hl, detect_start_with_lock.
  pose proof (detect_start_lock env image w) as Hs. rewrite Hl in Hs.
  destruct (detect_start env image w) as [[e|p] w1]; cbn [fst snd] in *.
  - rewrite (with_lock_cancel true w1 Hs). reflexivity.
  - rewrite process_frame_finish_eq, detect_finish_with_lock.
    pose proof (detect_finish_lock env p w1) as Hf. rewrite Hs in Hf.
    destruct (detect_finish env p w1) as [[e|d] w2]; cbn [fst snd] in *.
    + rewrite (with_lock_cancel true w2 Hf). reflexivity.
    + unfold store. f_equal. destruct w2 as [s tr tk]. cbn in *.
      destruct s. cbn in *. subst. reflexivity.
Qed.

(** X5. With the gate free, [process_frame] is [detect] followed by the
    store of its result: same exception if [detect] raises, and otherwise
    the world [detect] leaves with [current_detections] replaced by what
    [detect] returned. *)
Theorem process_frame_is_detect_then_store (env : Env) (image : Image) (w : World) :
  _processing_lock (svc w) = false ->
  process_frame env image w =
  match detect env image w with
  | (inr detections, w') => (inr tt, store detections w')
  | (inl e, w') => (inl e, w')
  end.
Proof. apply process_frame_unlocked_eq. Qed.

Lemma process_frame_is_detect_then_store_witness :
  let env := Fixture.env_of Fixture.segmenter in
  let w := boot Fixture.fresh in
  process_frame env Fixture.frame w =
  match detect env Fixture.frame w with
  | (inr detections, w') => (inr tt, store detections w')
  | (inl e, w') => (inl e, w')
  end.
Proof.
  cbv zeta.
  apply (process_frame_is_detect_then_store (Fixture.env_of Fixture.segmenter)).
  reflexivity.
Defined.

(** ** Explicit and lazy initialization *)

Lemma initialize_returns_ready env w u w1 :
  ultralytics env <> None ->
  initialize env w = (inr u, w1) ->
  is_initialized (svc w1) = true.
Proof.
  intros Ha. rewrite initialize_eq.
  destruct (is_initialized (svc w)) eqn:Ei; [congruence|].
  destruct (ultralytics env) as [ctor|]; [|congruence].
  cbv zeta. destruct (ctor (model_path (svc w))) as [e|m]; [discriminate|].
  destruct (call m warm_up_frame None); [discriminate|].
  intros H. injection H as _ <-. reflexivity.
Qed.

(** X6. Calling [initialize()] ahead of time and then [detect] is the
    same as letting [detect] initialize lazily: same result, same final
    world (the same backend calls in the same order), provided the backend
    was importable. *)
Theorem eager_initialize_then_detect (env : Env) (image : Image) (w : World) :
  ultralytics env <> None ->
  bind (initialize env) (fun _ => detect env image) w = detect env image w.
Proof.
  intros Ha. unfold bind at 1.
  destruct (initialize env w) as [[e|u] w1] eqn:Ei.
  - unfold detect, bind. rewrite detect_start_eq, Ei. reflexivity.
  - pose proof (initialize_returns_ready env w u w1 Ha Ei) as Hr.
    unfold detect, bind. rewrite !detect_start_eq, Ei.
    rewrite initialize_eq, Hr. reflexivity.
Qed.

Lemma eager_initialize_then_detect_witness :
  let env := Fixture.env_of Fixture.detector in
  bind (initialize env) (fun _ => detect env Fixture.frame) (boot Fixture.fresh)
  = detect env Fixture.frame (boot Fixture.fresh).
Proof.
  cbv zeta.
  apply (eager_initialize_then_detect (Fixture.env_of Fixture.detector)).
  discriminate.
Defined.

(** X7. A failed [initialize] can be retried.  It leaves the service
    not initialized, and it does not influence a later attempt: in any
    environment, retrying raises or returns exactly as a first attempt
    would, and if it gets the service ready, the ready service is the one
    a first attempt would have produced. *)
Theorem failed_initialize_is_retryable
  (env : Env) (w w' : World) (e : Exn) :
  initialize env w = (inl e, w') ->
  is_initialized (svc w') = false /\
  forall env2,
    fst (initialize env2 w') = fst (initialize env2 w) /\
    (is_initialized (svc (snd (initialize env2 w'))) = true ->
     svc (snd (initialize env2 w')) = svc (snd (initialize env2 w))).
Proof.
  rewrite initialize_eq.
  destruct (is_initialized (svc w)) eqn:Ei; [discriminate|].
  destruct (ultralytics env) as [ctor|]; [|discriminate].
  cbv zeta. destruct (ctor (model_path (svc w))) as [e0|m].
  - intros H. injection H as _ <-. cbn [logged svc]. split; [exact Ei|].
    intros env2. rewrite !initialize_eq. cbn [logged svc]. rewrite Ei.
    destruct (ultralytics env2) as [ctor2|]; [|split; reflexivity].
    cbv zeta. destruct (ctor2 (model_path (svc w))) as [e2|m2];
      [split; reflexivity|].
    destruct (call m2 warm_up_frame None); split; reflexivity.
  - destruct (call m warm_up_frame None) as [e1|r]; [|discriminate].
    intros H. injection H as _ <-. cbn [svc set_model is_initialized].
    split; [exact Ei|].
    intros env2. rewrite !initialize_eq.
    cbn [svc set_model is_initialized model_path]. rewrite Ei.
    destruct (ultralytics env2) as [ctor2|];
      [|cbn; split; [reflexivity|rewrite Ei; discriminate]].
    cbv zeta. destruct (ctor2 (model_path (svc w))) as [e2|m2];
      [cbn; split; [reflexivity|rewrite Ei; discriminate]|].
    destruct (call m2 warm_up_frame None); cbn; split; reflexivity.
Qed.

Lemma failed_initialize_is_retryable_witness :
  let w := boot Fixture.fresh in
  let w' := snd (initialize Fixture.env_broken w) in
  let env2 := Fixture.env_of Fixture.detector in
  is_initialized (svc w') = false /\
  is_initialized (svc (snd (initialize env2 w'))) = true /\
  svc (snd (initialize env2 w')) = svc (snd (initialize env2 w)).
Proof.
  cbv zeta.
  destruct (failed_initialize_is_retryable Fixture.env_broken
              (boot Fixture.fresh)
              (snd (initialize Fixture.env_broken (boot Fixture.fresh)))
              (BackendError "no such file") eq_refl) as [H0 H].
  destruct (H (Fixture.env_of Fixture.detector)) as [_ H2].
  split; [exact H0|]. split; [reflexivity|]. apply H2. reflexivity.
Defined.

(** ** What a run adds to the trace *)

Lemma continues_refl w : continues w w.
Proof.
  split; [reflexivity|]. split; [reflexivity|].
  exists []. rewrite app_nil_r. split; [reflexivity|].
  split; [constructor|]. intros Hr.
  split; [exact Hr|]. split; [reflexivity|constructor].
Qed.

Lemma configured_same s s' ev :
  model_path s' = model_path s -> confidence s' = confidence s ->
  configured s' ev -> configured s ev.
Proof.
  intros Hp Hc. destruct ev as [path|image [c|]|lvl]; cbn; congruence.
Qed.

Lemma continues_trans w1 w2 w3 :
  continues w1 w2 -> continues w2 w3 -> continues w1 w3.
Proof.
  intros (Hp1 & Hc1 & evs1 & Ht1 & Hf1 & Hr1) (Hp2 & Hc2 & evs2 & Ht2 & Hf2 & Hr2).
  split; [congruence|]. split; [congruence|].
  exists (evs1 ++ evs2). split; [rewrite Ht2, Ht1, app_assoc; reflexivity|].
  split.
  - apply Forall_app. split; [exact Hf1|].
    eapply Forall_impl; [exact Hf2|]. intros ev. apply configured_same; assumption.
  - intros Hr. destruct (Hr1 Hr) as (Hr' & Hm1 & Hq1).
    destruct (Hr2 Hr') as (Hr'' & Hm2 & Hq2).
    split; [exact Hr''|]. split; [congruence|].
    apply Forall_app. split; assumption.
Qed.

(** A step that writes neither the trace nor what [initialize] manages. *)
Lemma continues_quiet w w' :
  trace w' = trace w ->
  model_path (svc w') = model_path (svc w) ->
  confidence (svc w') = confidence (svc w) ->
  is_initialized (svc w') = is_initialized (svc w) ->
  model (svc w') = model (svc w) ->
  continues w w'.
Proof.
  intros Ht Hp Hc Hi Hm. split; [exact Hp|]. split; [exact Hc|].
  exists []. rewrite app_nil_r. split; [exact Ht|]. split; [constructor|].
  intros Hr. split; [congruence|]. split; [exact Hm|constructor].
Qed.

(** Before the service is ready, only the configuration matters. *)
Lemma continues_unready w w' evs :
  is_initialized (svc w) = false ->
  model_path (svc w') = model_path (svc w) ->
  confidence (svc w') = confidence (svc w) ->
  trace w' = trace w ++ evs ->
  Forall (configured (svc w)) evs ->
  continues w w'.
Proof.
  intros Hi Hp Hc Ht Hf. split; [exact Hp|]. split; [exact Hc|].
  exists evs. split; [exact Ht|]. split; [exact Hf|]. congruence.
Qed.

Lemma initialize_continues env w : continues w (snd (initialize env w)).
Proof.
  rewrite initialize_eq.
  destruct (is_initialized (svc w)) eqn:Ei; [apply continues_refl|].
  destruct (ultralytics env) as [ctor|].
  - cbv zeta. unfold err_log.
    destruct (ctor (model_path (svc w))) as [e|m].
    + eapply (continues_unready _ _ _ Ei); [reflexivity..|].
      destruct (is_Exception e); repeat constructor.
    + destruct (call m warm_up_frame None) as [e|r];
        (eapply (continues_unready _ _ _ Ei); [reflexivity..|]);
        [destruct (is_Exception e)|]; repeat constructor.
  - eapply (continues_unready _ _ _ Ei); [reflexivity..|].
    repeat constructor.
Qed.

Lemma detect_start_continues env image w :
  continues w (snd (detect_start env image w)).
Proof.
  rewrite detect_start_eq.
  pose proof (initialize_continues env w) as Hi.
  destruct (initialize env w) as [[e|u] w1]; cbn [snd] in *; [exact Hi|].
  eapply continues_trans; [exact Hi|].
  split; [reflexivity|]. split; [reflexivity|].
  exists (invoked (svc w1) image). cbn [svc trace]. split; [reflexivity|].
  unfold invoked. destruct (model (svc w1)).
  - split; [repeat constructor|]. intros Hr.
    split; [exact Hr|]. split; [reflexivity|]. repeat constructor.
  - split; [constructor|]. intros Hr.
    split; [exact Hr|]. split; [reflexivity|]. constructor.
Qed.

Lemma detect_finish_continues env p w :
  continues w (snd (detect_finish env p w)).
Proof.
  assert (Hlog : continues w (logged w [EvLog ERROR])).
  { split; [reflexivity|]. split; [reflexivity|].
    exists [EvLog ERROR]. split; [reflexivity|].
    split; [repeat constructor|]. intros Hr.
    split; [exact Hr|]. split; [reflexivity|]. repeat constructor. }
  rewrite detect_finish_eq, detect_body_eq.
  destruct (awaited p) as [e|results].
  - destruct (is_Exception e); cbn [snd]; [exact Hlog|apply continues_refl].
  - destruct (fst (decode results w)) as [e|d]; cbn [snd].
    + destruct (is_Exception e); cbn [snd]; [exact Hlog|apply continues_refl].
    + apply continues_quiet; reflexivity.
Qed.

Lemma with_lock_continues b w : continues w (with_lock b w).
Proof. apply continues_quiet; reflexivity. Qed.

Lemma process_frame_start_continues env image w :
  continues w (snd (process_frame_start env image w)).
Proof.
  rewrite process_frame_start_eq.
  destruct (_processing_lock (svc w)); [apply continues_refl|].
  eapply continues_trans; [apply (with_lock_continues true)|].
  pose proof (detect_start_continues env image (with_lock true w)) as H.
  destruct (detect_start env image (with_lock true w)) as [[e|p] w1];
    cbn [snd] in *; [|exact H].
  eapply continues_trans; [exact H|apply with_lock_continues].
Qed.

Lemma process_frame_finish_continues env p w :
  continues w (snd (process_frame_finish env p w)).
Proof.
  rewrite process_frame_finish_eq.
  pose proof (detect_finish_continues env p w) as H.
  destruct (detect_finish env p w) as [[e|d] w1]; cbn [snd] in *;
    (eapply continues_trans; [exact H|]); apply continues_quiet; reflexivity.
Qed.

Lemma exec_continues env op w : continues w (exec env op w).
Proof.
  destruct op as [|image|p|image|image|p|image| |]; cbn [exec].
  - apply initialize_continues.
  - apply detect_start_continues.
  - apply detect_finish_continues.
  - unfold detect, bind.
    pose proof (detect_start_continues env image w) as Hs.
    destruct (detect_start env image w) as [[e|p] w1]; cbn [snd] in *;
      [exact Hs|].
    eapply continues_trans; [exact Hs|apply detect_finish_continues].
  - apply process_frame_start_continues.
  - apply process_frame_finish_continues.
  - unfold process_frame, bind.
    pose proof (process_frame_start_continues env image w) as Hs.
    destruct (process_frame_start env image w) as [[e|[p|]] w1]; cbn [snd] in *;
      try exact Hs.
    eapply continues_trans; [exact Hs|apply process_frame_finish_continues].
  - apply continues_refl.
  - apply continues_refl.
Qed.

Lemma run_continues env ops : forall w, continues w (run env ops w).
Proof.
  unfold run. induction ops as [|op ops IH]; intros w; cbn [fold_left].
  - apply continues_refl.
  - eapply continues_trans; [apply exec_continues|apply IH].
Qed.

(** X8. The service calls the backend with the values it was
    constructed with, and never changes them.  Along any run of a new
    service, [model_path] and [confidence] stay what the constructor got;
    every model construction uses that path, every inference on a frame
    is run with that confidence threshold, and the only call without a
    threshold is the warm-up on the blank 640 x 640 frame. *)
Theorem backend_calls_use_configuration
  (env : Env) (path : string) (c : float) (s : ObjectDetectionService)
  (ops : list Op) :
  __init__ env path c = inr s ->
  let w := run env ops (boot s) in
  model_path (svc w) = path /\ confidence (svc w) = c /\
  Forall (fun ev =>
            match ev with
            | EvConstruct path' => path' = path
            | EvInvoke image None => image = warm_up_frame
            | EvInvoke image (Some c') => c' = c
            | EvLog _ => True
            end) (trace w).
Proof.
  intros Hnew. cbv zeta.
  assert (Hs : model_path s = path /\ confidence s = c).
  { unfold __init__ in Hnew. destruct (negb (YOLO_AVAILABLE env)); [discriminate|].
    injection Hnew as <-. split; reflexivity. }
  destruct Hs as [Hp Hc].
  destruct (run_continues env ops (boot s)) as (Hp' & Hc' & evs & Ht & Hf & _).
  cbn [boot svc trace] in *. rewrite Hp', Hc', Ht, app_nil_l.
  split; [exact Hp|]. split; [exact Hc|].
  eapply Forall_impl; [exact Hf|].
  intros [path'|image [c'|]|lvl]; cbn; congruence.
Qed.

Lemma backend_calls_use_configuration_witness :
  let env := Fixture.env_of Fixture.picky in
  let ops := [OpProcessFrame Fixture.frame; OpDetect Fixture.empty_frame] in
  let w := run env ops (boot Fixture.fresh) in
  confidence (svc w) = 0.25%float /\
  trace w = [EvLog INFO; EvConstruct "yolo26n-seg.pt";
             EvInvoke warm_up_frame None; EvLog INFO;
             EvInvoke Fixture.frame (Some 0.25%float);
             EvInvoke Fixture.empty_frame (Some 0.25%float); EvLog ERROR] /\
  Forall (fun ev => match ev with
                    | EvInvoke image (Some c') => c' = 0.25%float
                    | _ => True
                    end) (trace w).
Proof.
  cbv zeta.
  destruct (backend_calls_use_configuration (Fixture.env_of Fixture.picky)
              default_model_path default_confidence Fixture.fresh
              [OpProcessFrame Fixture.frame; OpDetect Fixture.empty_frame]
              eq_refl) as (_ & Hc & Hf).
  split; [exact Hc|]. split; [vm_compute; reflexivity|].
  eapply Forall_impl; [exact Hf|].
  intros [path'|image [c'|]|lvl]; auto.
Defined.

(** X9. Ready is final.  From a ready service, along any run, the
    service stays ready, holds the same model handle, and the trace gains
    no model construction and no warm-up call. *)
Theorem ready_is_final (env : Env) (ops : list Op) (w : World) :
  is_initialized (svc w) = true ->
  let w' := run env ops w in
  is_initialized (svc w') = true /\
  model (svc w') = model (svc w) /\
  List.filter is_load (trace w') = List.filter is_load (trace w).
Proof.
  intros Hr. cbv zeta.
  destruct (run_continues env ops w) as (_ & _ & evs & Ht & _ & H).
  destruct (H Hr) as (Hr' & Hm & Hq).
  split; [exact Hr'|]. split; [exact Hm|].
  rewrite Ht, List.filter_app.
  assert (He : List.filter is_load evs = []).
  { clear Ht H. induction Hq as [|ev evs Hev _ IH]; [reflexivity|].
    cbn [List.filter]. rewrite Hev. exact IH. }
  rewrite He, app_nil_r. reflexivity.
Qed.

Lemma ready_is_final_witness :
  let env := Fixture.env_of Fixture.picky in
  let w := run env [OpInitialize] (boot Fixture.fresh) in
  let w' := run env [OpProcessFrame Fixture.frame; OpInitialize;
                     OpDetect Fixture.empty_frame] w in
  is_initialized (svc w') = true /\
  model (svc w') = Some Fixture.picky /\
  List.filter is_load (trace w') =
    [EvConstruct "yolo26n-seg.pt"; EvInvoke warm_up_frame None].
Proof.
  cbv zeta.
  destruct (ready_is_final (Fixture.env_of Fixture.picky)
              [OpProcessFrame Fixture.frame; OpInitialize;
               OpDetect Fixture.empty_frame]
              (run (Fixture.env_of Fixture.picky) [OpInitialize]
                 (boot Fixture.fresh)) eq_refl) as (Hr & Hm & Hl).
  split; [exact Hr|]. split; [rewrite Hm; reflexivity|].
  rewrite Hl. reflexivity.
Defined.

(** ** One backend call per frame *)




(** ** The last latency *)

Lemma default_last_cons {A} (d x : A) (l : list A) :
  default d (last (x :: l)) = default x (last l).
Proof.
  destruct l as [|y l]; [reflexivity|]. cbn [last].
  assert (H : exists z, last (y :: l) = Some z).
  { clear. revert y. induction l as [|y' l IH]; intros y; [eauto|].
    cbn [last]. apply IH. }
  destruct H as [z ->]. reflexivity.
Qed.

Lemma run_last_inference_time env ops : forall w,
  last_inference_time (svc (run env ops w)) =
  default (last_inference_time (svc w)) (last (latencies env ops w)).
Proof.
  unfold run.
  induction ops as [|op ops IH]; intros w; cbn [fold_left latencies];
    [reflexivity|].
  rewrite IH.
  pose proof (exec_metrics env op w) as H. unfold metrics_of in H.
  destruct (recorded env op w) as [l|]; cbn [bump] in H; injection H as -> _ _.
  - rewrite default_last_cons. reflexivity.
  - reflexivity.
Qed.

(** X11. [last_latency_ms] of the snapshot is the latency of the most
    recent successful inference, times 1000, whatever failed or dropped
    frames came after it, and [0.0] on a service that has not completed
    one. *)
Theorem last_latency_snapshot
  (env : Env) (path : string) (c : float) (s : ObjectDetectionService)
  (ops : list Op) :
  __init__ env path c = inr s ->
  let w := run env ops (boot s) in
  let ls := latencies env ops (boot s) in
  get_metrics (svc w) !! "last_latency_ms" =
    Some (VFloat (default 0 (last ls) * 1000)%float).
Proof.
  intros Hnew. cbv zeta.
  assert (H0 : last_inference_time s = 0%float).
  { unfold __init__ in Hnew. destruct (negb (YOLO_AVAILABLE env)); [discriminate|].
    injection Hnew as <-. reflexivity. }
  unfold get_metrics.
  rewrite !lookup_insert_ne by discriminate. rewrite lookup_singleton_eq.
  rewrite run_last_inference_time. cbn [boot svc]. rewrite H0. reflexivity.
Qed.

Lemma last_latency_snapshot_witness :
  let env := Fixture.env_of Fixture.picky in
  let ops := [OpDetect Fixture.frame; OpDetect Fixture.empty_frame;
              OpDetect Fixture.empty_frame] in
  let w := run env ops (boot Fixture.fresh) in
  latencies env ops (boot Fixture.fresh) = [0.5%float] /\
  get_metrics (svc w) !! "last_latency_ms" = Some (VFloat 500).
Proof.
  cbv zeta.
  pose proof (last_latency_snapshot (Fixture.env_of Fixture.picky)
                default_model_path default_confidence Fixture.fresh
                [OpDetect Fixture.frame; OpDetect Fixture.empty_frame;
                 OpDetect Fixture.empty_frame] eq_refl) as H.
  cbv zeta in H.
  assert (Hl : latencies (Fixture.env_of Fixture.picky)
                 [OpDetect Fixture.frame; OpDetect Fixture.empty_frame;
                  OpDetect Fixture.empty_frame] (boot Fixture.fresh)
               = [0.5%float]) by (vm_compute; reflexivity).
  rewrite Hl in H. split; [exact Hl|exact H].
Defined.

(** ** Single flight, under the event loop *)

Lemma frames_delete ts : forall i t,
  ts !! i = Some t ->
  length (List.filter is_frame ts) =
  (length (List.filter is_frame (delete i ts)) + if is_frame t then 1 else 0)%nat.
Proof.
  induction ts as [|t0 ts IH]; intros i t Hi; [discriminate|].
  destruct i as [|i]; cbn in Hi.
  - injection Hi as ->. cbn [delete list_delete List.filter].
    destruct (is_frame t); cbn [length]; lia.
  - change (delete (S i) (t0 :: ts)) with (t0 :: delete i ts).
    cbn [List.filter]. specialize (IH i t Hi).
    destruct (is_frame t0); cbn [length]; lia.
Qed.

Lemma frames_snoc ts t :
  length (List.filter is_frame (ts ++ [t])) =
  (length (List.filter is_frame ts) + if is_frame t then 1 else 0)%nat.
Proof.
  rewrite List.filter_app, length_app. cbn [List.filter].
  destruct (is_frame t); reflexivity.
Qed.

Lemma act_gate_inv env a sys : gate_inv sys -> gate_inv (act env a sys).
Proof.
  unfold gate_inv, frames_in_flight. intros Hinv.
  destruct a as [|image|image|i]; cbn [act].
  - cbn [world tasks]. destruct (initialize_frame env (world sys)) as (_ & _ & _ & _ & Hl & _).
    rewrite Hl. exact Hinv.
  - pose proof (detect_start_lock env image (world sys)) as Hl.
    destruct (detect_start env image (world sys)) as [[e|p] w1];
      cbn [snd world tasks] in *; rewrite Hl.
    + exact Hinv.
    + rewrite frames_snoc. cbn [is_frame]. lia.
  - pose proof (process_frame_start_lock env image (world sys)) as Hl.
    rewrite process_frame_start_eq in *.
    destruct (_processing_lock (svc (world sys))) eqn:El;
      [cbn [world tasks]; rewrite El; exact Hinv|].
    destruct (detect_start env image (with_lock true (world sys)))
      as [[e|p] w1]; cbn [snd world tasks] in *; rewrite Hl.
    + exact Hinv.
    + rewrite frames_snoc. cbn [is_frame]. lia.
  - destruct (tasks sys !! i) as [[p|p]|] eqn:Ei; [| |exact Hinv];
      cbn [world tasks]; pose proof (frames_delete _ _ _ Ei) as Hd;
      cbn [is_frame] in Hd.
    + rewrite detect_finish_lock. lia.
    + rewrite process_frame_finish_lock.
      destruct (_processing_lock (svc (world sys))); lia.
Qed.

Lemma schedule_gate_inv env acts : forall sys,
  gate_inv sys -> gate_inv (schedule env acts sys).
Proof.
  unfold schedule. induction acts as [|a acts IH]; intros sys H; cbn [fold_left];
    [exact H|].
  apply IH, act_gate_inv, H.
Qed.

(** X12. Single flight under the event loop.  Start from a new service
    and let the loop start and resume [detect] and [process_frame] calls
    in any order.  Then at every moment the number of suspended
    [process_frame] calls is 1 if the gate is held and 0 if not, so at most
    one is in flight; and while one is in flight, starting another
    [process_frame] changes nothing: no new call is suspended and the world
    is as before. *)
Theorem single_flight_under_the_loop
  (env : Env) (path : string) (c : float) (s : ObjectDetectionService)
  (acts : list Action) :
  __init__ env path c = inr s ->
  let sys := schedule env acts (start s) in
  gate_inv sys /\
  (frames_in_flight sys <= 1)%nat /\
  (frames_in_flight sys = 1%nat ->
   forall image, act env (AFrame image) sys = sys).
Proof.
  intros Hnew. cbv zeta.
  assert (H0 : gate_inv (start s)).
  { unfold __init__ in Hnew. destruct (negb (YOLO_AVAILABLE env)); [discriminate|].
    injection Hnew as <-. reflexivity. }
  pose proof (schedule_gate_inv env acts (start s) H0) as Hinv.
  split; [exact Hinv|]. unfold gate_inv in Hinv.
  split; [rewrite Hinv; destruct (_processing_lock _); lia|].
  intros H1 image. rewrite H1 in Hinv.
  destruct (_processing_lock (svc (world (schedule env acts (start s))))) eqn:El;
    [|discriminate].
  cbn [act]. rewrite process_frame_start_eq, El.
  destruct (schedule env acts (start s)); reflexivity.
Qed.

Lemma single_flight_under_the_loop_witness :
  let env := Fixture.env_of Fixture.detector in
  let acts := [AFrame Fixture.frame; ADetect Fixture.frame; AFrame Fixture.frame] in
  let sys := schedule env acts (start Fixture.fresh) in
  frames_in_flight sys = 1%nat /\
  length (tasks sys) = 2%nat /\
  act env (AFrame Fixture.empty_frame) sys = sys.
Proof.
  cbv zeta.
  destruct (single_flight_under_the_loop (Fixture.env_of Fixture.detector)
              default_model_path default_confidence Fixture.fresh
              [AFrame Fixture.frame; ADetect Fixture.frame; AFrame Fixture.frame]
              eq_refl) as (_ & _ & H).
  split; [reflexivity|]. split; [reflexivity|].
  apply H. reflexivity.
Defined.

(** ** [detect] and the gate *)

Lemma detect_with_lock env image b w :
  detect env image (with_lock b w) =
  (fst (detect env image w), with_lock b (snd (detect env image w))).
Proof.
  unfold detect, bind. rewrite detect_start_with_lock.
  destruct (detect_start env image w) as [[e|p] w1]; cbn [fst snd];
    [reflexivity|].
  apply detect_finish_with_lock.
Qed.

(** X13. [detect] is not gated.  Called directly, it neither reads nor
    writes the lock: with the gate held or free it returns the same result
    and has the same effect on everything else, and it leaves the gate as
    it found it.  Only [process_frame] is single-flight. *)
Theorem detect_ignores_the_gate (env : Env) (image : Image) (b : bool) (w : World) :
  detect env image (with_lock b w) =
  (fst (detect env image w), with_lock b (snd (detect env image w))) /\
  _processing_lock (svc (snd (detect env image w))) = _processing_lock (svc w).
Proof.
  split; [apply detect_with_lock|].
  unfold detect, bind.
  pose proof (detect_start_lock env image w) as Hs.
  destruct (detect_start env image w) as [[e|p] w1]; cbn [snd] in *; [exact Hs|].
  rewrite detect_finish_lock. exact Hs.
Qed.

(** ** When a frame decodes *)

Lemma decode_box_succeeds_iff masks i box w :
  (exists det, fst (decode_box masks i box w) = inr det) <->
  decodable (model (svc w)) masks i box.
Proof.
  unfold decodable, decode_box, index. unfold_M.
  destruct (xyxy box !! 0%nat) as [coords|]; cbv beta iota;
    [|split; [intros [d H]; discriminate|intros (?&?&?&?&?&?&H&_); discriminate]].
  destruct (conf box !! 0%nat) as [c|]; cbv beta iota;
    [|split; [intros [d H]; discriminate|intros (?&?&?&?&?&?&_&H&_); discriminate]].
  destruct (cls box !! 0%nat) as [k|]; cbv beta iota;
    [|split; [intros [d H]; discriminate|intros (?&?&?&?&?&?&_&_&H&_); discriminate]].
  destruct (Py.int k) as [e|cid] eqn:Ek; cbv beta iota.
  { split; [intros [d H]; discriminate|].
    intros (?&?&k'&?&?&?&_&_&H&H'&_). congruence. }
  destruct (model (svc w)) as [mm|]; cbv beta iota;
    [|split; [intros [d H]; discriminate|intros (?&?&?&?&?&?&_&_&_&_&H&_); discriminate]].
  destruct (names mm !! cid) as [label|] eqn:En; cbv beta iota.
  2:{ split; [intros [d H]; discriminate|].
      intros (?&?&k'&cid'&mm'&?&_&_&Hk&Hc&Hm&Hn&_).
      injection Hk as <-. injection Hm as <-.
      rewrite Ek in Hc. injection Hc as <-. congruence. }
  destruct masks as [ms|].
  - destruct (xy ms !! i) as [seg|] eqn:Es; cbv beta iota.
    + split; [|destruct seg as [[|pt pts]|]; eauto].
      intros _. exists coords, c, k, cid, mm, label. repeat split; eauto.
    + split; [intros [d H]; discriminate|].
      intros (?&?&?&?&?&?&_&_&_&_&_&_&[seg H]). discriminate.
  - split; [|eauto]. intros _. exists coords, c, k, cid, mm, label.
    repeat split; assumption.
Qed.

Lemma decode_loop_succeeds masks bs : forall i0 w,
  (forall j box, bs !! j = Some box ->
     exists det, fst (decode_box masks (i0 + j) box w) = inr det) ->
  exists dets, decode_loop masks i0 bs w = (inr dets, w).
Proof.
  induction bs as [|b bs IH]; intros i0 w H; cbn [decode_loop]; [eexists; reflexivity|].
  unfold bind.
  destruct (H 0%nat b eq_refl) as [d Hd]. rewrite Nat.add_0_r in Hd.
  pose proof (decode_box_ro masks i0 b w) as Hro.
  destruct (decode_box masks i0 b w) as [[e|d'] w1]; cbn [fst snd] in *;
    [discriminate|]. subst w1.
  destruct (IH (S i0) w) as [ds Hds].
  { intros j box Hb. specialize (H (S j) box Hb).
    rewrite Nat.add_succ_r in H. exact H. }
  rewrite Hds. eexists. reflexivity.
Qed.

(** X14. A frame decodes exactly when every one of its boxes does.
    The decode step returns a batch if and only if the backend returned
    nothing to decode, or the first result has a box table all of whose
    boxes are decodable; the batch then has one detection per box. *)
Theorem frame_decodes_iff (results : option (list Results)) (w : World) :
  (exists dets, fst (decode results w) = inr dets /\
                length dets = length (frame_boxes results)) <->
  match results with
  | Some (result :: _) =>
      exists bs, boxes result = Some bs /\
        forall j box, bs !! j = Some box ->
          decodable (model (svc w)) (masks result) j box
  | _ => True
  end.
Proof.
  destruct results as [[|result rest]|]; cbn [decode frame_boxes];
    try (split; [tauto|]; intros _; exists []; split; reflexivity).
  destruct (boxes result) as [bs|] eqn:Eb; cbn [default].
  - split.
    + intros (dets & Hd & _). exists bs. split; [reflexivity|].
      intros j box Hb. apply decode_box_succeeds_iff.
      destruct (decode_loop (masks result) 0 bs w) as [[e|ds] w1] eqn:El;
        cbn [fst] in Hd; [discriminate|].
      destruct (decode_loop_inr _ _ _ _ _ _ El) as [Hlen Hnth].
      destruct (lookup_lt_is_Some_2 ds j) as [det Hdet].
      { rewrite Hlen. apply lookup_lt_is_Some. eauto. }
      exists det. pose proof (Hnth j box det Hb Hdet) as Hx.
      cbn [Nat.add] in Hx. rewrite Hx. reflexivity.
    + intros (bs' & Hbs & H). injection Hbs as <-.
      destruct (decode_loop_succeeds (masks result) bs 0%nat w) as [dets Hd].
      { intros j box Hb. apply decode_box_succeeds_iff, H, Hb. }
      exists dets. rewrite Hd. split; [reflexivity|].
      apply (decode_loop_inr _ _ _ _ _ _ Hd).
  - split.
    + intros (dets & Hd & _). discriminate.
    + intros (bs & Hbs & _). discriminate.
Qed.
